(** * ali-react-table: the virtualised BaseTable and its EmptyTable

    A shallow embedding of [base-table/empty.tsx]: the column-windowing
    function [getHorizontalRenderRange], the cell renderer [renderCell] with
    its span clipping and span registration, the geometry hysteresis of
    [updateOffsetX] and of the [distinctUntilChanged] comparator in
    [initSubscriptions], the subscription bookkeeping around
    [rootSubscription], and the [EmptyTable] component.

    Conventions.
    - A JavaScript [number] that holds a pixel quantity or a span is a [Z].
      The numbers of the source are binary64 floating-point numbers; every
      integer of magnitude at most [2 ^ 53] is one of them, and sums and
      differences of such integers that stay within that magnitude are
      computed without rounding.  The [Z] model is therefore that of integer
      pixel quantities within that magnitude.  Statements that compare the
      numbers the code itself computes (index bounds, the loop guards) do
      not depend on this; statements that relate a sum the code accumulates
      to a sum taken in another order do, and carry [exactInBinary64] as a
      hypothesis.  The module [Binary64] repeats the column window on
      binary64 numbers, for widths that are not integers.
    - An array index or a length is a [nat].
    - [x < y / 2] on numbers is written [2 * x <? y]: the division of the
      source is exact, so both say the same on integers.
    - A [while] loop is a [Fixpoint] on a fuel argument that follows the loop
      body literally; each loop is given [length center] units of fuel and is
      shown to leave through its own exit ([loop condition false] or
      [break]) before the fuel is used up. *)

From Stdlib Require Import String ZArith QArith List Bool Lia FinFun Sorted.
From Stdlib Require Import Floats.
Import ListNotations.

Set Implicit Arguments.

Local Open Scope Z_scope.

(** ** Library functions of the host language *)

(** [Array.prototype.slice(start, end)] for non-negative integer arguments:
    both ends are clamped to the length, and the result is empty when
    [end <= start]. *)
Definition slice {A : Type} (l : list A) (start end_ : nat) : list A :=
  firstn (end_ - start) (skipn start l).

(** [Array.prototype.slice(start)] for a non-negative integer argument. *)
Definition sliceFrom {A : Type} (l : list A) (start : nat) : list A :=
  skipn start l.

(** Modelled from the spec: [sum] of [./utils] is not under src/; the spec
    calls its result "the sum of the remaining column widths".  It adds the
    numbers of an array from left to right, starting from 0.  On integers
    the additions are those of [Z]; [Binary64.sum] is the same function on
    binary64 numbers, where each addition rounds. *)
Definition sum (arr : list Z) : Z := fold_left Z.add arr 0.

(** ** State passing

    Code that mutates an object it holds (the span manager of a render pass,
    the subscriptions of a component) is written in a state monad over that
    object. *)
Definition State (S A : Type) : Type := S -> A * S.

Definition ret {S A : Type} (a : A) : State S A := fun s => (a, s).

Definition bind {S A B : Type} (m : State S A) (k : A -> State S B)
    : State S B :=
  fun s => let '(a, s') := m s in k a s'.

Declare Scope state_scope.
Delimit Scope state_scope with state.
Notation "x <- m ;; k" := (bind m (fun x => k))
  (at level 61, m at next level, right associativity) : state_scope.
Notation "m ;;; k" := (bind m (fun _ => k))
  (at level 61, right associativity) : state_scope.
Local Open Scope state_scope.

Fixpoint mapM {S A B : Type} (f : A -> State S B) (l : list A)
    : State S (list B) :=
  match l with
  | [] => ret []
  | a :: l' => b <- f a ;; bs <- mapM f l' ;; ret (b :: bs)
  end.

(** [arr.map((x, i) => f(x, i))], the index counted from [i]. *)
Fixpoint mapi {A B : Type} (f : A -> nat -> B) (i : nat) (l : list A)
    : list B :=
  match l with
  | [] => []
  | a :: l' => f a i :: mapi f (S i) l'
  end.

(** ** Data model *)

Module SpanRect.
(** [SpanRect] of [../interfaces]: a half-open rectangle of cells. *)
Record t : Type := mk { top : Z; bottom : Z; left : Z; right : Z }.
End SpanRect.

(** The part of a cell's props that [renderCell] reads. *)
Record CellProps : Type := mkCellProps {
  cellColSpan : option Z;
  cellRowSpan : option Z }.

(** [ArtColumn] of [../interfaces], restricted to the fields the table body
    reads.  [any] is the type of a row of [dataSource].  [getSpanRect] and
    [getCellProps] are optional methods; the cell value they receive is
    itself computed from the column, the record and the row index, so they
    are functions of the record and the row index here. *)
Record ArtColumn (any : Type) : Type := mkArtColumn {
  width : Z;
  getSpanRect : option (any -> Z -> option SpanRect.t);
  getCellProps : option (any -> Z -> option CellProps) }.

Module Flat.
(** [BaseTableState.flat]: the leaf columns, all of them and by group. *)
Record t (col : Type) : Type := mk {
  full : list col;
  left : list col;
  center : list col;
  right : list col }.
End Flat.

Record UseVirtual : Type := mkUseVirtual {
  horizontal : bool;
  vertical : bool;
  header : bool }.

Record BaseTableState (any : Type) : Type := mkState {
  flat : Flat.t (ArtColumn any);
  hasScroll : bool;
  needRenderLock : bool;
  useVirtual : UseVirtual;
  offsetY : Z;
  maxRenderHeight : Z;
  offsetX : Z;
  maxRenderWidth : Z }.

Record HorizontalRenderRange : Type := mkHoz {
  leftIndex : nat;
  leftBlank : Z;
  rightIndex : nat;
  rightBlank : Z }.

Record VerticalRenderRange : Type := mkVer {
  topIndex : nat;
  topBlank : Z;
  bottomIndex : nat;
  bottomBlank : Z }.

Record FullRenderRange : Type := mkRange {
  rangeVertical : VerticalRenderRange;
  rangeHorizontal : HorizontalRenderRange }.

(** [HozWrappedCol] of [./interfaces]: a column to paint, with its index
    among all leaf columns, or a blank that stands for the center columns
    left out on one side. *)
Inductive BlankSide : Type := blankLeft | blankRight.

Inductive HozWrappedCol (any : Type) : Type :=
| normal (col : ArtColumn any) (colIndex : Z)
| blank (blankSide : BlankSide) (blankWidth : Z).

Arguments blank {any} blankSide blankWidth.

(** ** getHorizontalRenderRange *)

Section HorizontalRange.

Variable any : Type.

(** [OVERSCAN_SIZE] of [./utils], which is not under src/. *)
Variable OVERSCAN_SIZE : Z.

(** The first loop: skip the columns that end before the overscanned
    offset.
<<
  while (leftIndex < flat.center.length) {
    const col = flat.center[leftIndex]
    if (col.width + leftBlank < overscannedOffsetX) {
      leftIndex += 1
      leftBlank += col.width
    } else break
  }
>> *)
Fixpoint leftLoop (fuel : nat) (center : list (ArtColumn any))
    (overscannedOffsetX : Z) (leftIndex : nat) (leftBlank : Z) : nat * Z :=
  match fuel with
  | O => (leftIndex, leftBlank)
  | S fuel' =>
      match nth_error center leftIndex with
      | None => (leftIndex, leftBlank)
      | Some col =>
          if width col + leftBlank <? overscannedOffsetX
          then leftLoop fuel' center overscannedOffsetX
                 (S leftIndex) (leftBlank + width col)
          else (leftIndex, leftBlank)
      end
  end.

(** The second loop: take columns from [leftIndex] on while the rendered
    width stays below [minCenterRenderWidth].
<<
  while (leftIndex + centerCount < flat.center.length) {
    const col = flat.center[leftIndex + centerCount]
    if (col.width + centerRenderWidth < minCenterRenderWidth) {
      centerRenderWidth += col.width
      centerCount += 1
    } else break
  }
>> *)
Fixpoint centerLoop (fuel : nat) (center : list (ArtColumn any))
    (minCenterRenderWidth : Z) (leftIndex centerCount : nat)
    (centerRenderWidth : Z) : nat * Z :=
  match fuel with
  | O => (centerCount, centerRenderWidth)
  | S fuel' =>
      match nth_error center (leftIndex + centerCount) with
      | None => (centerCount, centerRenderWidth)
      | Some col =>
          if width col + centerRenderWidth <? minCenterRenderWidth
          then centerLoop fuel' center minCenterRenderWidth leftIndex
                 (S centerCount) (centerRenderWidth + width col)
          else (centerCount, centerRenderWidth)
      end
  end.

(** [getHorizontalRenderRange], on integer widths, offset, viewport width
    and overscan ([Binary64.getHorizontalRenderRange] is its virtualised
    branch on binary64 numbers).  The subtractions on lengths are those of
    the source: [leftIndex + centerCount] never exceeds [flat.center.length]
    (see [getHorizontalRenderRange_virtual]), so none of them is cut off
    at 0. *)
Definition getHorizontalRenderRange (state : BaseTableState any)
    : HorizontalRenderRange :=
  let flat := flat state in
  let center := Flat.center flat in
  if negb (horizontal (useVirtual state)) then
    {| leftIndex := 0; leftBlank := 0;
       rightIndex := length (Flat.full flat); rightBlank := 0 |}
  else
    let overscannedOffsetX := Z.max 0 (offsetX state - OVERSCAN_SIZE) in
    let '(leftIndex, leftBlank) :=
      leftLoop (length center) center overscannedOffsetX 0 0 in
    let minCenterRenderWidth :=
      maxRenderWidth state + (overscannedOffsetX - leftBlank)
      + 2 * OVERSCAN_SIZE in
    let '(centerCount, centerRenderWidth) :=
      centerLoop (length center) center minCenterRenderWidth leftIndex 0 0 in
    let rightBlankCount := (length center - leftIndex - centerCount)%nat in
    let rightBlank :=
      sum (map (@width any)
             (sliceFrom center (length center - rightBlankCount))) in
    {| leftIndex := leftIndex; leftBlank := leftBlank;
       rightIndex := (leftIndex + centerCount)%nat;
       rightBlank := rightBlank |}.

End HorizontalRange.

(** ** The span manager

    [helpers/SpanManager] is not under src/: [renderCell] is written against
    its three methods, which are taken here as an interface. *)
Class SpanManagerOps (SM : Type) : Type := {
  newSpanManager : SM;
  testSkip : SM -> Z -> Z -> bool;
  stripUpwards : SM -> Z -> SM;
  add : SM -> Z -> Z -> Z -> Z -> SM }.

(** Modelled from the spec: the class [SpanManager] of
    [helpers/SpanManager], missing from src/.  It keeps the rectangles
    registered in the current pass.  A cell is covered when a registered
    rectangle contains it and it is not that rectangle's origin; stripping
    upwards at a row drops the rectangles that end above that row;
    registering a span appends its rectangle. *)
Definition covers (rowIndex colIndex : Z) (rect : SpanRect.t) : bool :=
  (SpanRect.left rect <=? colIndex) && (colIndex <? SpanRect.right rect)
  && (SpanRect.top rect <=? rowIndex) && (rowIndex <? SpanRect.bottom rect)
  && negb ((SpanRect.top rect =? rowIndex) && (SpanRect.left rect =? colIndex)).

#[export] Instance RectSpanManager : SpanManagerOps (list SpanRect.t) := {
  newSpanManager := [];
  testSkip rects rowIndex colIndex := existsb (covers rowIndex colIndex) rects;
  stripUpwards rects rowIndex :=
    filter (fun rect => rowIndex <? SpanRect.bottom rect) rects;
  add rects rowIndex colIndex colSpan rowSpan :=
    rects ++ [SpanRect.mk rowIndex (rowIndex + rowSpan)
                colIndex (colIndex + colSpan)] }.

(** ** The table body *)

(** A call [spanManager.add(rowIndex, colIndex, colSpan, rowSpan)]. *)
Record Registration : Type := mkRegistration {
  regRowIndex : Z;
  regColIndex : Z;
  regColSpan : Z;
  regRowSpan : Z }.

(** What [renderCell] decides for a cell it paints.  [colSpan] and
    [rowSpan] are the clipped locals, the ones that [spanManager.add] is
    given, and [cellHasSpan] is [hasSpan].  [tdColSpan] and [tdRowSpan] are
    the [colSpan] and [rowSpan] props of the [td] element:
<<
  React.createElement('td',
    { key: colIndex, ...cellProps, className: ..,
      ...(hasSpan ? { colSpan, rowSpan } : null), style: .. },
    cellContent)
>>
    they are the clipped spans when [hasSpan], and otherwise whatever
    [cellProps] holds, unclipped ([None] when it holds none). *)
Record Cell : Type := mkCell {
  cellRowIndex : Z;
  cellColIndex : Z;
  colSpan : Z;
  rowSpan : Z;
  cellHasSpan : bool;
  tdColSpan : option Z;
  tdRowSpan : option Z }.

(** A child of a [tr] of the body: the empty [td] of a blank, or what
    [renderCell] returns ([null] for a cell that is skipped). *)
Inductive RowChild : Type :=
| blankTd (blankSide : BlankSide)
| cellTd (cell : option Cell).

Section Body.

Variable any : Type.
Context {SM : Type} {ops : SpanManagerOps SM}.

(** The state a render pass threads through [renderRow] and [renderCell]:
    the span manager of the pass, and the history of its [add] calls,
    oldest first. *)
Record PassState : Type := mkPass {
  spanManager : SM;
  registered : list Registration }.

Definition Pass : Type -> Type := State PassState.

Definition spanManager_testSkip (rowIndex colIndex : Z) : Pass bool :=
  fun s => (testSkip (spanManager s) rowIndex colIndex, s).

Definition spanManager_stripUpwards (rowIndex : Z) : Pass unit :=
  fun s => (tt, mkPass (stripUpwards (spanManager s) rowIndex)
                  (registered s)).

Definition spanManager_add (rowIndex colIndex colSpan rowSpan : Z)
    : Pass unit :=
  fun s => (tt, mkPass (add (spanManager s) rowIndex colIndex colSpan rowSpan)
                  (registered s
                   ++ [mkRegistration rowIndex colIndex colSpan rowSpan])).

(** [getFlatHozWrappedCols]: the array literal holds [false] in place of a
    blank whose width is not positive, and [filter(Boolean)] removes it. *)
Definition getFlatHozWrappedCols (state : BaseTableState any)
    (hoz : HorizontalRenderRange) : list (HozWrappedCol any) :=
  let flat := flat state in
  mapi (fun col i => normal col (Z.of_nat i)) 0 (Flat.left flat)
  ++ (if 0 <? leftBlank hoz then [blank blankLeft (leftBlank hoz)] else [])
  ++ mapi (fun col i =>
             normal col (Z.of_nat (length (Flat.left flat))
                         + Z.of_nat (leftIndex hoz) + Z.of_nat i))
       0 (slice (Flat.center flat) (leftIndex hoz) (rightIndex hoz))
  ++ (if 0 <? rightBlank hoz then [blank blankRight (rightBlank hoz)] else [])
  ++ mapi (fun col i =>
             normal col (Z.of_nat (length (Flat.full flat))
                         - Z.of_nat (length (Flat.right flat)) + Z.of_nat i))
       0 (Flat.right flat).

(** [column.getCellProps?.(value, record, rowIndex) ?? {}]. *)
Definition cellPropsOf (record : any) (rowIndex : Z)
    (column : ArtColumn any) : CellProps :=
  match getCellProps column with
  | Some f =>
      match f record rowIndex with
      | Some props => props
      | None => mkCellProps None None
      end
  | None => mkCellProps None None
  end.

(** The spans a cell asks for, before clipping: from [getSpanRect] when
    the column has one, else from the cell props, 1 when absent. *)
Definition requestedSpan (record : any) (rowIndex : Z)
    (column : ArtColumn any) (colIndex : Z) : Z * Z :=
  let cellProps := cellPropsOf record rowIndex column in
  match getSpanRect column with
  | Some f =>
      let spanRect := f record rowIndex in
      (match spanRect with
       | None => 1
       | Some r => SpanRect.right r - colIndex
       end,
       match spanRect with
       | None => 1
       | Some r => SpanRect.bottom r - rowIndex
       end)
  | None =>
      (match cellColSpan cellProps with Some c => c | None => 1 end,
       match cellRowSpan cellProps with Some r => r | None => 1 end)
  end.

Section RenderTableBody.

Variable state : BaseTableState any.
Variable dataSource : list any.
Variable renderRange : FullRenderRange.

Let ver := rangeVertical renderRange.
Let hoz := rangeHorizontal renderRange.
Let leftFlatCount := Z.of_nat (length (Flat.left (flat state))).

(** [renderCell]: [null] for a covered cell, else the [td], of which the
    position, the spans and the span props are kept. *)
Definition renderCell (record : any) (rowIndex : Z)
    (column : ArtColumn any) (colIndex : Z) : Pass (option Cell) :=
  skip <- spanManager_testSkip rowIndex colIndex ;;
  if skip : bool then ret None
  else
    let cellProps := cellPropsOf record rowIndex column in
    let '(colSpan, rowSpan) :=
      requestedSpan record rowIndex column colIndex in
    let rowSpan := Z.min rowSpan (Z.of_nat (bottomIndex ver) - rowIndex) in
    let colSpan :=
      Z.min colSpan
        (leftFlatCount + Z.of_nat (rightIndex hoz) - colIndex) in
    let hasSpan := (1 <? colSpan) || (1 <? rowSpan) in
    (if hasSpan then spanManager_add rowIndex colIndex colSpan rowSpan
     else ret tt) ;;;
    ret (Some (mkCell rowIndex colIndex colSpan rowSpan hasSpan
                 (if hasSpan then Some colSpan else cellColSpan cellProps)
                 (if hasSpan then Some rowSpan else cellRowSpan cellProps))).

Definition renderRow (wrappedCols : list (HozWrappedCol any))
    (record : any) (i : nat) : Pass (list RowChild) :=
  let rowIndex := Z.of_nat (topIndex ver) + Z.of_nat i in
  spanManager_stripUpwards rowIndex ;;;
  mapM (fun wrapped =>
          match wrapped with
          | blank side _ => ret (blankTd side)
          | normal col colIndex =>
              cell <- renderCell record rowIndex col colIndex ;;
              ret (cellTd cell)
          end)
    wrappedCols.

(** The rows of the body, for a range that is not empty:
    [dataSource.slice(ver.topIndex, ver.bottomIndex).map(renderRow)]
    with a new span manager. *)
Definition renderRows : list (list RowChild) * PassState :=
  let wrappedCols := getFlatHozWrappedCols state hoz in
  mapM (fun ri => renderRow wrappedCols (fst ri) (snd ri))
    (mapi (fun record i => (record, i)) 0
       (slice dataSource (topIndex ver) (bottomIndex ver)))
    (mkPass newSpanManager []).

End RenderTableBody.

End Body.

(** ** Viewport geometry and its hysteresis *)

Module ClipRect.
(** The visible rectangle of the table inside its flow root. *)
Record t : Type := mk { top : Z; bottom : Z; left : Z; right : Z }.
End ClipRect.

(** What [getVisiblePartObservable] of [helpers/visible-part] emits. *)
Record VisiblePart : Type := mkVisiblePart {
  clipRect : ClipRect.t;
  partOffsetY : Z }.

Module SizeAndOffset.
(** The object built by the [op.map] of the last subscription of
    [initSubscriptions] and handed to [setState]. *)
Record t : Type := mk {
  maxRenderHeight : Z;
  maxRenderWidth : Z;
  offsetY : Z }.
End SizeAndOffset.

(** [distinctUntilChanged(comparator)] of rxjs: the operator remembers the
    last value it let through; the first value passes, a later value passes
    unless [comparator(remembered, value)] holds.  The result is the value
    emitted, if any, and the value remembered afterwards. *)
Definition distinctUntilChanged {A : Type} (comparator : A -> A -> bool)
    (remembered : option A) (value : A) : option A * option A :=
  match remembered with
  | None => (Some value, Some value)
  | Some previous =>
      if comparator previous value then (None, remembered)
      else (Some value, Some value)
  end.

Section Geometry.

Variable any : Type.
Variable OVERSCAN_SIZE : Z.

(** [this.setState({ offsetX })]. *)
Definition setOffsetX (state : BaseTableState any) (x : Z)
    : BaseTableState any :=
  {| flat := flat state; hasScroll := hasScroll state;
     needRenderLock := needRenderLock state;
     useVirtual := useVirtual state;
     offsetY := offsetY state; maxRenderHeight := maxRenderHeight state;
     offsetX := x; maxRenderWidth := maxRenderWidth state |}.

(** [this.setState(sizeAndOffset)]. *)
Definition setSizeAndOffset (state : BaseTableState any)
    (v : SizeAndOffset.t) : BaseTableState any :=
  {| flat := flat state; hasScroll := hasScroll state;
     needRenderLock := needRenderLock state;
     useVirtual := useVirtual state;
     offsetY := SizeAndOffset.offsetY v;
     maxRenderHeight := SizeAndOffset.maxRenderHeight v;
     offsetX := offsetX state;
     maxRenderWidth := SizeAndOffset.maxRenderWidth v |}.

(** [updateOffsetX]: the state that [setState] installs, or [None] when
    [setState] is not called. *)
Definition updateOffsetX (state : BaseTableState any) (nextOffsetX : Z)
    : option (BaseTableState any) :=
  if horizontal (useVirtual state) then
    if OVERSCAN_SIZE <=? 2 * Z.abs (nextOffsetX - offsetX state)
    then Some (setOffsetX state nextOffsetX)
    else None
  else None.

(** The comparator given to [distinctUntilChanged] in
    [initSubscriptions]. *)
Definition sizeAndOffsetUnchanged (x y : SizeAndOffset.t) : bool :=
  (2 * Z.abs (SizeAndOffset.maxRenderWidth x - SizeAndOffset.maxRenderWidth y)
     <? OVERSCAN_SIZE)
  && (2 * Z.abs (SizeAndOffset.maxRenderHeight x
                 - SizeAndOffset.maxRenderHeight y) <? OVERSCAN_SIZE)
  && (2 * Z.abs (SizeAndOffset.offsetY x - SizeAndOffset.offsetY y)
        <? OVERSCAN_SIZE).

(** The [op.map] of that pipeline. *)
Definition toSizeAndOffset (part : VisiblePart) : SizeAndOffset.t :=
  let clipRect := clipRect part in
  {| SizeAndOffset.maxRenderHeight :=
       ClipRect.bottom clipRect - ClipRect.top clipRect;
     SizeAndOffset.maxRenderWidth :=
       ClipRect.right clipRect - ClipRect.left clipRect;
     SizeAndOffset.offsetY := partOffsetY part |}.

(** The table together with the memory of the [distinctUntilChanged]
    operator of its viewport subscription. *)
Record Coordinator : Type := mkCoordinator {
  tableState : BaseTableState any;
  remembered : option SizeAndOffset.t }.

(** One value of [visiblePart$] through
    [filter], [map], [distinctUntilChanged] and the subscriber.  The
    second component is the argument of [setState], [None] when the
    subscriber is not called. *)
Definition onVisiblePart (c : Coordinator) (part : VisiblePart)
    : Coordinator * option SizeAndOffset.t :=
  let state := tableState c in
  if horizontal (useVirtual state) || vertical (useVirtual state) then
    let '(emitted, remembered') :=
      distinctUntilChanged sizeAndOffsetUnchanged (remembered c)
        (toSizeAndOffset part) in
    match emitted with
    | Some sizeAndOffset =>
        (mkCoordinator (setSizeAndOffset state sizeAndOffset) remembered',
         Some sizeAndOffset)
    | None => (mkCoordinator state remembered', None)
    end
  else (c, None).

(** A sequence of values of [visiblePart$], oldest first, with the
    [setState] argument of each. *)
Fixpoint onVisibleParts (c : Coordinator) (parts : list VisiblePart)
    : Coordinator * list (option SizeAndOffset.t) :=
  match parts with
  | [] => (c, [])
  | part :: rest =>
      let '(c', update) := onVisiblePart c part in
      let '(c'', updates) := onVisibleParts c' rest in
      (c'', update :: updates)
  end.

(** The table right after [componentDidMount]: nothing has gone through
    the viewport subscription yet. *)
Definition mounted (state : BaseTableState any) : Coordinator :=
  mkCoordinator state None.

(** The last value that passed among [updates], if any. *)
Fixpoint lastPassed (updates : list (option SizeAndOffset.t))
    (before : option SizeAndOffset.t) : option SizeAndOffset.t :=
  match updates with
  | [] => before
  | Some v :: rest => lastPassed rest (Some v)
  | None :: rest => lastPassed rest before
  end.

End Geometry.

(** ** Subscriptions *)

(** The signals that reach the table through [initSubscriptions]: the
    throttled window resize; the scroll events that [syncScrollLeft] keeps
    in step; the resolution of the flow root (from [data$], by
    [animationFrameScheduler] when [flowRoot] is a function); the visible
    part of the table in its flow root; and the start of loading (the
    filtered [data$]). *)
Inductive Signal : Type :=
| windowResize
| scrollSynchronization
| flowRootResolution
| visiblePartUpdate
| loadingStart.

Definition Signal_eqb (a b : Signal) : bool :=
  match a, b with
  | windowResize, windowResize
  | scrollSynchronization, scrollSynchronization
  | flowRootResolution, flowRootResolution
  | visiblePartUpdate, visiblePartUpdate
  | loadingStart, loadingStart => true
  | _, _ => false
  end.

(** A subscription made by the table: the signals that feed its callback
    (through the operators between them) and whether it has been closed.  A
    subscription is named by its position in [subscriptions]. *)
Record Subscriber : Type := mkSubscriber {
  sources : list Signal;
  closed : bool }.

(** rxjs [Subscription] as [rootSubscription] uses it: its [closed] flag and
    the child subscriptions added to it. *)
Record Subscription : Type := mkSubscription {
  rootClosed : bool;
  children : list nat }.

(** The subscriptions of one table instance: every subscription it has
    made, and its [rootSubscription] field. *)
Record Subscriptions : Type := mkSubscriptions {
  subscriptions : list Subscriber;
  rootSubscription : Subscription }.

(** [private rootSubscription = new Subscription()] of a new instance. *)
Definition newInstance : Subscriptions :=
  mkSubscriptions [] (mkSubscription false []).

(** Closing the subscription named [id]. *)
Fixpoint close (id : nat) (subs : list Subscriber) : list Subscriber :=
  match subs, id with
  | [], _ => []
  | s :: rest, O => mkSubscriber (sources s) true :: rest
  | s :: rest, S id' => s :: close id' rest
  end.

(** [observable.subscribe(callback)], and [syncScrollLeft(..)] which
    returns a subscription as well: a new open subscription fed by
    [signals], named by the result. *)
Definition subscribe (signals : list Signal) : State Subscriptions nat :=
  fun s =>
    (length (subscriptions s),
     mkSubscriptions (subscriptions s ++ [mkSubscriber signals false])
       (rootSubscription s)).

(** [this.rootSubscription.add(child)]: rxjs closes the child at once when
    the parent is closed already, and records it as a child otherwise. *)
Definition rootSubscription_add (child : nat) : State Subscriptions unit :=
  fun s =>
    let root := rootSubscription s in
    if rootClosed root
    then (tt, mkSubscriptions (close child (subscriptions s)) root)
    else (tt, mkSubscriptions (subscriptions s)
                (mkSubscription false (children root ++ [child]))).

(** [this.rootSubscription.unsubscribe()]: nothing when closed already;
    else the root is closed and so is every child. *)
Definition rootSubscription_unsubscribe : State Subscriptions unit :=
  fun s =>
    let root := rootSubscription s in
    if rootClosed root then (tt, s)
    else (tt, mkSubscriptions
                (fold_left (fun subs id => close id subs) (children root)
                   (subscriptions s))
                (mkSubscription true [])).

(** The signals behind [visiblePart$]: it is [resolvedFlowRoot$] switched
    to [getVisiblePartObservable]. *)
Definition visiblePart : list Signal :=
  [flowRootResolution; visiblePartUpdate].

(** [initSubscriptions]: the window resize; the scroll synchronisation; the
    position of the loading indicator, from [visiblePart$] combined with the
    filtered [data$]; the viewport geometry, from [visiblePart$]. *)
Definition initSubscriptions : State Subscriptions unit :=
  (s1 <- subscribe [windowResize] ;; rootSubscription_add s1 ;;;
   s2 <- subscribe [scrollSynchronization] ;; rootSubscription_add s2 ;;;
   s3 <- subscribe (visiblePart ++ [loadingStart]) ;;
   rootSubscription_add s3 ;;;
   s4 <- subscribe visiblePart ;; rootSubscription_add s4)%state.

Definition componentWillUnmount : State Subscriptions unit :=
  rootSubscription_unsubscribe.

(** The lifecycle calls that touch subscriptions; [componentDidMount]
    reaches them through [initSubscriptions]. *)
Inductive Lifecycle : Type := didMount | willUnmount.

Definition lifecycle (call : Lifecycle) : State Subscriptions unit :=
  match call with
  | didMount => initSubscriptions
  | willUnmount => componentWillUnmount
  end.

Definition lifecycles (calls : list Lifecycle) (s : Subscriptions)
    : Subscriptions :=
  fold_left (fun s call => snd (lifecycle call s)) calls s.

(** The callbacks that run when [source] emits: those of the open
    subscriptions it feeds. *)
Definition fires (source : Signal) (s : Subscriptions) : list nat :=
  map fst
    (filter (fun ns => existsb (Signal_eqb source) (sources (snd ns))
                       && negb (closed (snd ns)))
       (mapi (fun sub id => (id, sub)) 0 (subscriptions s))).

(** ** EmptyTable *)

(** [Classes] of [./styles], the entries used here. *)
Module Classes.
Definition prefix : string := "art-".
Definition tableRow : string := prefix ++ "table-row".
Definition tableCell : string := prefix ++ "table-cell".
Definition emptyWrapper : string := prefix ++ "empty-wrapper".
End Classes.

(** [cx] of [classnames] on string arguments: joined by one space. *)
Definition cx (names : list string) : string := String.concat " " names.

(** What can stand for [EmptyContent]: a component, or the value [null]
    (the project's own typing shows that it is compiled without
    [strictNullChecks], so [null] inhabits [React.ComponentType]). *)
Inductive ComponentType : Type :=
| DefaultEmptyContent
| Custom (name : string)
| jsNull.

(** The attributes that [EmptyTable] sets on its elements. *)
Record Attributes : Type := mkAttributes {
  className : option string;
  attrColSpan : option Z;
  styleHeight : option Z;
  dataRowIndex : option Z }.

Definition noAttributes : Attributes := mkAttributes None None None None.

(** React nodes: [false] (painted as nothing), a host element, the element
    [<type />] of a component with no props (an element of type [null] when
    [type] is [jsNull]), or a node built by the caller. *)
#[warnings="-register-all"]
Inductive ReactNode : Type :=
| jsFalse
| element (tag : string) (attributes : Attributes) (childNodes : list ReactNode)
| component (type : ComponentType)
| external (key : nat).

(** The props of [EmptyTable].  [EmptyContent] is [None] when the prop is
    [undefined] or absent; a prop that is [null] is [Some jsNull]. *)
Record EmptyTableProps : Type := mkEmptyTableProps {
  colgroup : ReactNode;
  propColSpan : Z;
  isLoading : bool;
  emptyCellHeight : option Z;
  EmptyContent : option ComponentType }.

(** [a ?? b] on a value whose [None] stands for [null] and [undefined]
    alike; on a value whose [None] is [undefined] alone, the default of a
    destructuring pattern, [{ a = b }]. *)
Definition nullish {A : Type} (a : option A) (b : A) : A :=
  match a with Some v => v | None => b end.

(** [EmptyTable].  [EmptyContent = DefaultEmptyContent] in the parameter
    pattern replaces an [undefined] prop only: given [null], the component
    builds an element of type [null]. *)
Definition EmptyTable (props : EmptyTableProps) : ReactNode :=
  let EmptyContent :=
    match EmptyContent props with
    | None => DefaultEmptyContent
    | Some type => type
    end in
  let show := negb (isLoading props) in
  element "table" noAttributes
    [ colgroup props;
      element "tbody" noAttributes
        [ element "tr"
            (mkAttributes
               (Some (cx [Classes.tableRow; "first"; "last"; "no-hover"]))
               None None (Some 0))
            [ element "td"
                (mkAttributes (Some (cx [Classes.tableCell; "first"; "last"]))
                   (Some (propColSpan props))
                   (Some (nullish (emptyCellHeight props) 200)) None)
                [ if show
                  then element "div"
                         (mkAttributes (Some Classes.emptyWrapper)
                            None None None)
                         [ component EmptyContent ]
                  else jsFalse ] ] ] ]%string.

(** Reading a rendered tree. *)
Definition tagOf (node : ReactNode) : option string :=
  match node with element tag _ _ => Some tag | _ => None end.

Definition attributesOf (node : ReactNode) : Attributes :=
  match node with element _ a _ => a | _ => noAttributes end.

Definition childrenOf (node : ReactNode) : list ReactNode :=
  match node with element _ _ c => c | _ => [] end.

(** The children of [node] that are elements with tag [tag]. *)
Definition childElements (tag : string) (node : ReactNode) : list ReactNode :=
  filter (fun child =>
            match tagOf child with
            | Some t => String.eqb t tag
            | None => false
            end)
    (childrenOf node).

(** The cells of a rendered table: the [td] children of the [tr] children
    of its [tbody] children. *)
Definition cellsOf (table : ReactNode) : list ReactNode :=
  flat_map (childElements "td")
    (flat_map (childElements "tr") (childElements "tbody" table)).

(** Whether a component element of type [c] occurs in [node]. *)
Fixpoint occurs (c : ComponentType) (node : ReactNode) : bool :=
  match node with
  | jsFalse => false
  | element _ _ childNodes => existsb (occurs c) childNodes
  | component c' =>
      match c, c' with
      | DefaultEmptyContent, DefaultEmptyContent => true
      | Custom a, Custom b => String.eqb a b
      | jsNull, jsNull => true
      | _, _ => false
      end
  | external _ => false
  end.

(** What React paints for a list of children: [false] paints nothing. *)
Definition painted (nodes : list ReactNode) : list ReactNode :=
  filter (fun n => match n with jsFalse => false | _ => true end) nodes.

(** ** Examples *)

(** A table of five 50-pixel center columns scrolled to 120 with a
    100-pixel viewport. *)
Definition col50 : ArtColumn unit := mkArtColumn 50 None None.

Definition fiveColumns : BaseTableState unit :=
  let cs := [col50; col50; col50; col50; col50] in
  {| flat := Flat.mk cs [] cs [];
     hasScroll := true; needRenderLock := true;
     useVirtual := mkUseVirtual true true true;
     offsetY := 0; maxRenderHeight := 600;
     offsetX := 120; maxRenderWidth := 100 |}.

(** The same table with horizontal virtualisation off and its first column
    locked to the left: one left column, four center columns. *)
Definition lockedColumns : BaseTableState unit :=
  let cs := [col50; col50; col50; col50] in
  {| flat := Flat.mk (col50 :: cs) [col50] cs [];
     hasScroll := true; needRenderLock := true;
     useVirtual := mkUseVirtual false true false;
     offsetY := 0; maxRenderHeight := 600;
     offsetX := 0; maxRenderWidth := 100 |}.

(** The shape of [flat] that the column indices rely on: [full] lists the
    left, center and right leaf columns in that order.
    [getDerivedStateFromProps], which builds [flat], is not under src/; the
    property is a hypothesis wherever it is used. *)
Definition flatWellFormed {col : Type} (f : Flat.t col) : Prop :=
  Flat.full f = Flat.left f ++ Flat.center f ++ Flat.right f.

(** A table of one 50-pixel column whose cells ask for a [rowSpan] of 5,
    rendered for the rows 0 to 9. *)
Definition tallCells : ArtColumn unit :=
  mkArtColumn 50 None (Some (fun _ _ => Some (mkCellProps None (Some 5)))).

Definition tallTable : BaseTableState unit :=
  {| flat := Flat.mk [tallCells] [] [tallCells] [];
     hasScroll := true; needRenderLock := true;
     useVirtual := mkUseVirtual false true false;
     offsetY := 0; maxRenderHeight := 600;
     offsetX := 0; maxRenderWidth := 800 |}.

Definition tallRange : FullRenderRange :=
  mkRange (mkVer 0 0 10 0) (mkHoz 0 0 1 0).

Definition tallData : list unit := repeat tt 10.

(** A viewport event: an 800 by 600 clip rectangle at the vertical
    offset [y]. *)
Definition viewportAt (y : Z) : VisiblePart :=
  mkVisiblePart (ClipRect.mk 0 600 0 800) y.

(** ** Specification vocabulary for the hysteresis *)

(** The hysteresis as the specification words it, on consecutive events: an
    event that differs from the one just before it by less than half the
    overscan in all three quantities triggers no update. *)
Definition consecutiveHysteresis (OVERSCAN_SIZE : Z) {any : Type}
    (state : BaseTableState any) : Prop :=
  forall (before : list VisiblePart) (e1 e2 : VisiblePart),
    sizeAndOffsetUnchanged OVERSCAN_SIZE (toSizeAndOffset e1)
      (toSizeAndOffset e2) = true ->
    snd (onVisiblePart OVERSCAN_SIZE
           (fst (onVisibleParts OVERSCAN_SIZE (mounted state)
                   (before ++ [e1])))
           e2) = None.

(** ** Specification vocabulary for subscriptions and for EmptyTable *)

(** The subscription named [j], if any, is closed. *)
Definition closedAt (subs : list Subscriber) (j : nat) : Prop :=
  forall sub, nth_error subs j = Some sub -> closed sub = true.

(** Every subscription the instance has made is closed. *)
Definition allClosed (s : Subscriptions) : Prop :=
  Forall (fun sub => closed sub = true) (subscriptions s).

(** While the root is open, its children are all the subscriptions the
    instance has made; once it is closed, they are all closed. *)
Definition subscriptionsInvariant (s : Subscriptions) : Prop :=
  if rootClosed (rootSubscription s) then allClosed s
  else children (rootSubscription s) = seq 0 (length (subscriptions s)).

(** One [this.rootSubscription.add(observable.subscribe(..))]. *)
Definition subscribeAndAdd (signals : list Signal)
    : State Subscriptions unit :=
  id <- subscribe signals ;; rootSubscription_add id.

(** The only cell of a rendered [EmptyTable]: the [td] of the [tr] of the
    [tbody] that follows the colgroup. *)
Definition cellOf (table : ReactNode) : option ReactNode :=
  match childrenOf table with
  | [_; tbody] =>
      match childrenOf tbody with
      | [tr] =>
          match childrenOf tr with
          | [td] => Some td
          | _ => None
          end
      | _ => None
      end
  | _ => None
  end.

(** ** Specification vocabulary for spans *)

(** The column indices of the columns to paint. *)
Definition colIndexes {any : Type} (wrappedCols : list (HozWrappedCol any))
    : list Z :=
  flat_map (fun wrapped =>
              match wrapped with
              | normal _ colIndex => [colIndex]
              | blank _ _ => []
              end)
    wrappedCols.

(** Modelled from the spec: [renderedColumnCountFrom(colIndex)], which the
    source does not have; the number of columns that are painted at or
    after [colIndex]. *)
Definition renderedColumnCountFrom {any : Type} (state : BaseTableState any)
    (hoz : HorizontalRenderRange) (colIndex : Z) : Z :=
  Z.of_nat
    (length (filter (fun i => colIndex <=? i)
               (colIndexes (getFlatHozWrappedCols state hoz)))).

(** The cells painted in a row: the children that are not blanks and not
    [null]. *)
Definition cellsOfRow (children : list RowChild) : list Cell :=
  flat_map (fun child =>
              match child with
              | cellTd (Some cell) => [cell]
              | _ => []
              end)
    children.

(** A cell spans when its clipped [colSpan] or its clipped [rowSpan]
    exceeds 1. *)
Definition spans (cell : Cell) : bool :=
  (1 <? colSpan cell) || (1 <? rowSpan cell).

Definition registrationOf (cell : Cell) : Registration :=
  mkRegistration (cellRowIndex cell) (cellColIndex cell)
    (colSpan cell) (rowSpan cell).



(** The rows and the columns that a painted [td] takes up: its [rowSpan]
    and [colSpan] props, 1 where it has none, as HTML reads them. *)
Definition tdRows (cell : Cell) : Z := nullish (tdRowSpan cell) 1.

Definition tdCols (cell : Cell) : Z := nullish (tdColSpan cell) 1.

(** Modelled from the spec: "the rendered extent never exceeds the current
    render range".  The [td] ends at or before the last row of the vertical
    range, and takes up no more columns than are painted from its own on. *)
Definition withinRange {any : Type} (state : BaseTableState any)
    (renderRange : FullRenderRange) (cell : Cell) : Prop :=
  cellRowIndex cell + tdRows cell
  <= Z.of_nat (bottomIndex (rangeVertical renderRange))
  /\ tdCols cell
     <= renderedColumnCountFrom state (rangeHorizontal renderRange)
          (cellColIndex cell).


(** A row range that ends inside the second span of [tallTable]: the rows
    0 to 5. *)
Definition shortRange : FullRenderRange :=
  mkRange (mkVer 0 0 6 0) (mkHoz 0 0 1 0).

(** A table of five 50-pixel columns, the first locked to the left, whose
    last column asks for a [colSpan] of 2, with horizontal virtualisation
    off. *)
Definition wideCells : ArtColumn unit :=
  mkArtColumn 50 None (Some (fun _ _ => Some (mkCellProps (Some 2) None))).

Definition lockedWide : BaseTableState unit :=
  let cs := [col50; col50; col50; wideCells] in
  {| flat := Flat.mk (col50 :: cs) [col50] cs [];
     hasScroll := true; needRenderLock := true;
     useVirtual := mkUseVirtual false true false;
     offsetY := 0; maxRenderHeight := 600;
     offsetX := 0; maxRenderWidth := 100 |}.

(** ** Specification vocabulary for the column window *)

(** [stop] is the first index at or after [start] at which the running
    width from [start], that column counted, reaches [threshold]; it is the
    number of columns when no column does. *)
Definition reachesAt (widths : list Z) (start : nat) (threshold : Z)
    (stop : nat) : Prop :=
  (start <= stop <= length widths)%nat
  /\ (forall j, (start <= j < stop)%nat ->
        sum (slice widths start (S j)) < threshold)
  /\ ((stop < length widths)%nat ->
        threshold <= sum (slice widths start (S stop))).



(** Every number that [getHorizontalRenderRange] and the colgroup compute
    in [state] is an integer of magnitude at most [2 ^ 53]: the widths are
    integers by their type, and the bound covers every partial sum and
    every difference that the code forms.  On such a state the binary64
    arithmetic of the source is exact and agrees with that of [Z]. *)
Definition magnitude (widths : list Z) : Z := sum (map Z.abs widths).

Definition exactInBinary64 (OVERSCAN_SIZE : Z) {any : Type}
    (state : BaseTableState any) : Prop :=
  magnitude (map (@width any) (Flat.full (flat state)))
  + magnitude (map (@width any) (Flat.center (flat state)))
  + Z.abs (offsetX state) + Z.abs (maxRenderWidth state)
  + 3 * Z.abs OVERSCAN_SIZE
  <= 2 ^ 53.

(** ** The column window on binary64 numbers *)

Module Binary64.

(** [Math.max(0, x)]: [NaN] for [NaN], and [+0] for either zero. *)
Definition max0 (x : float) : float :=
  if PrimFloat.eqb x x
  then if PrimFloat.ltb 0 x then x else 0%float
  else x.

(** Modelled from the spec: [sum] of [./utils], on binary64 numbers; each
    addition rounds to the nearest. *)
Definition sum (arr : list float) : float :=
  fold_left PrimFloat.add arr 0%float.

(** What the virtualised branch reads of the state: the widths of
    [flat.center], [offsetX] and [maxRenderWidth]. *)
Record State : Type := mkState {
  center : list float;
  offsetX : float;
  maxRenderWidth : float }.

Record HorizontalRenderRange : Type := mkHoz {
  leftIndex : nat;
  leftBlank : float;
  rightIndex : nat;
  rightBlank : float }.

Fixpoint leftLoop (fuel : nat) (center : list float)
    (overscannedOffsetX : float) (leftIndex : nat) (leftBlank : float)
    : nat * float :=
  match fuel with
  | O => (leftIndex, leftBlank)
  | S fuel' =>
      match nth_error center leftIndex with
      | None => (leftIndex, leftBlank)
      | Some width =>
          if PrimFloat.ltb (width + leftBlank) overscannedOffsetX
          then leftLoop fuel' center overscannedOffsetX
                 (S leftIndex) (leftBlank + width)
          else (leftIndex, leftBlank)
      end
  end%float.

Fixpoint centerLoop (fuel : nat) (center : list float)
    (minCenterRenderWidth : float) (leftIndex centerCount : nat)
    (centerRenderWidth : float) : nat * float :=
  match fuel with
  | O => (centerCount, centerRenderWidth)
  | S fuel' =>
      match nth_error center (leftIndex + centerCount) with
      | None => (centerCount, centerRenderWidth)
      | Some width =>
          if PrimFloat.ltb (width + centerRenderWidth) minCenterRenderWidth
          then centerLoop fuel' center minCenterRenderWidth leftIndex
                 (S centerCount) (centerRenderWidth + width)
          else (centerCount, centerRenderWidth)
      end
  end%float.

(** The virtualised branch of [getHorizontalRenderRange], operation by
    operation as in the source. *)
Definition getHorizontalRenderRange (OVERSCAN_SIZE : float) (state : State)
    : HorizontalRenderRange :=
  let center := center state in
  let overscannedOffsetX := max0 (offsetX state - OVERSCAN_SIZE)%float in
  let '(leftIndex, leftBlank) :=
    leftLoop (length center) center overscannedOffsetX 0 0%float in
  let minCenterRenderWidth :=
    (maxRenderWidth state + (overscannedOffsetX - leftBlank)
     + 2 * OVERSCAN_SIZE)%float in
  let '(centerCount, centerRenderWidth) :=
    centerLoop (length center) center minCenterRenderWidth leftIndex 0
      0%float in
  let rightBlankCount := (length center - leftIndex - centerCount)%nat in
  let rightBlank :=
    sum (sliceFrom center (length center - rightBlankCount)) in
  {| leftIndex := leftIndex; leftBlank := leftBlank;
     rightIndex := (leftIndex + centerCount)%nat;
     rightBlank := rightBlank |}.

(** The real number that a finite binary64 number stands for. *)
Definition toQ (x : float) : Q :=
  match Prim2SF x with
  | S754_finite negative mantissa exponent =>
      ((if negative then -1 else 1) * Z.pos mantissa # 1)
      * Qpower (2 # 1) exponent
  | _ => 0%Q
  end.

(** The sum of real numbers, without rounding. *)
Definition sumQ (arr : list Q) : Q := fold_left Qplus arr 0%Q.

(** Ten columns of 100.1 pixels (the binary64 number nearest to it),
    scrolled to 500 in a 300-pixel viewport. *)
Definition tenColumns : State :=
  mkState (repeat 0x1.9066666666666p+6%float 10) 500 300.

(** The five 50-pixel columns of [fiveColumns]. *)
Definition fiveColumns : State := mkState (repeat 50%float 5) 120 100.

End Binary64.

(** ** Further operations of the table *)

(** The widths of the [col] elements of the colgroup that [renderTableBody]
    builds from the wrapped columns:
<<
  wrappedCols.map((wrapped) =>
    wrapped.type === 'blank'
      ? <col key={wrapped.blankSide} style={{ width: wrapped.width }} />
      : <col key={wrapped.colIndex} style={{ width: wrapped.col.width }} />)
>> *)
Definition colgroupWidths {any : Type}
    (wrappedCols : list (HozWrappedCol any)) : list Z :=
  map (fun wrapped =>
         match wrapped with
         | blank _ blankWidth => blankWidth
         | normal col _ => width col
         end)
    wrappedCols.

(** A table of 400-pixel columns under an overscan of 100, scrolled to 60
    in an 800-pixel viewport. *)
Definition col400 : ArtColumn unit := mkArtColumn 400 None None.

Definition wideColumns : BaseTableState unit :=
  let cs := [col400; col400; col400; col400] in
  {| flat := Flat.mk cs [] cs [];
     hasScroll := true; needRenderLock := true;
     useVirtual := mkUseVirtual true true true;
     offsetY := 0; maxRenderHeight := 600;
     offsetX := 60; maxRenderWidth := 800 |}.

(** [fiveColumns] with its first column locked to the left and its last one
    locked to the right. *)
Definition lockedBothSides : BaseTableState unit :=
  let cs := [col50; col50; col50] in
  {| flat := Flat.mk (col50 :: cs ++ [col50]) [col50] cs [col50];
     hasScroll := true; needRenderLock := true;
     useVirtual := mkUseVirtual true true true;
     offsetY := 0; maxRenderHeight := 600;
     offsetX := 120; maxRenderWidth := 100 |}.

(** Twenty 50-pixel center columns scrolled to 120 with a 100-pixel
    viewport. *)
Definition manyColumns : BaseTableState unit :=
  let cs := repeat col50 20 in
  {| flat := Flat.mk cs [] cs [];
     hasScroll := true; needRenderLock := true;
     useVirtual := mkUseVirtual true true true;
     offsetY := 0; maxRenderHeight := 600;
     offsetX := 120; maxRenderWidth := 100 |}.

(** [manyColumns] scrolled further, to 170. *)
Definition manyColumnsFurther : BaseTableState unit :=
  setOffsetX manyColumns 170.

(** ** Scrolling and the lifecycle *)

Section Lifecycle.

Variable any : Type.
Variable OVERSCAN_SIZE : Z.

(** The state once [updateOffsetX] has run and React has applied its
    [setState], if it made one. *)
Definition afterUpdateOffsetX (state : BaseTableState any) (nextOffsetX : Z)
    : BaseTableState any :=
  match updateOffsetX OVERSCAN_SIZE state nextOffsetX with
  | Some state' => state'
  | None => state
  end.

(** The geometry that the viewport subscription keeps in the state. *)
Definition geometryOf (state : BaseTableState any) : SizeAndOffset.t :=
  {| SizeAndOffset.maxRenderHeight := maxRenderHeight state;
     SizeAndOffset.maxRenderWidth := maxRenderWidth state;
     SizeAndOffset.offsetY := offsetY state |}.

(** Once an event has passed, the operator of the viewport subscription
    remembers the geometry that is in the state. *)
Definition remembersState (c : Coordinator any) : Prop :=
  match remembered c with
  | None => True
  | Some v => v = geometryOf (tableState c)
  end.

(** [this.setState({ hasScroll })]. *)
Definition setHasScroll (state : BaseTableState any) (b : bool)
    : BaseTableState any :=
  {| flat := flat state; hasScroll := b;
     needRenderLock := needRenderLock state;
     useVirtual := useVirtual state;
     offsetY := offsetY state; maxRenderHeight := maxRenderHeight state;
     offsetX := offsetX state; maxRenderWidth := maxRenderWidth state |}.

(** [this.setState({ needRenderLock })]. *)
Definition setNeedRenderLock (state : BaseTableState any) (b : bool)
    : BaseTableState any :=
  {| flat := flat state; hasScroll := hasScroll state;
     needRenderLock := b;
     useVirtual := useVirtual state;
     offsetY := offsetY state; maxRenderHeight := maxRenderHeight state;
     offsetX := offsetX state; maxRenderWidth := maxRenderWidth state |}.

(** What the lifecycle methods measure on the DOM nodes of [this.doms]:
    [artTable.offsetWidth] and [artTable.clientWidth], the [offsetWidth] of
    the table inside the body, the height of [getScrollbarSize()], and
    [scrollLeft], [scrollWidth] and [clientWidth] of [tableBody]. *)
Record Layout : Type := mkLayout {
  artTableWidth : Z;
  artTableClientWidth : Z;
  innerTableWidth : Z;
  scrollbarHeight : Z;
  bodyScrollLeft : Z;
  bodyScrollWidth : Z;
  bodyClientWidth : Z }.

(** What [updateStickyScroll] does: the [marginTop] it gives the sticky
    scroll (in pixels, negative), the width it gives the sticky scroll item,
    and the argument of its [setState], each [None] when not done. *)
Record StickyScrollUpdate : Type := mkStickyScrollUpdate {
  stickyMarginTop : option Z;
  stickyItemWidth : option Z;
  hasScrollSet : option bool }.

(** [updateStickyScroll]; [layout] is [None] when [this.doms.artTable] is
    missing. *)
Definition updateStickyScroll (state : BaseTableState any)
    (layout : option Layout) : StickyScrollUpdate :=
  match layout with
  | None => mkStickyScrollUpdate None None None
  | Some dom =>
      mkStickyScrollUpdate
        (Some (- scrollbarHeight dom))
        (Some (innerTableWidth dom))
        (if innerTableWidth dom <=? artTableWidth dom then
           if hasScroll state then Some false else None
         else
           if negb (hasScroll state) && (5 <? scrollbarHeight dom)
           then Some true else None)
  end.

(** [isLock]; it reads [state.nested], of which only the left and the right
    group matter, given here beside the state. *)
Definition isLock (nested : Flat.t (ArtColumn any)) : bool :=
  (0 <? length (Flat.left nested))%nat
  || (0 <? length (Flat.right nested))%nat.

(** [adjustNeedRenderLock]: the argument of its [setState], [None] when it
    makes none. *)
Definition adjustNeedRenderLock (state : BaseTableState any)
    (nested : Flat.t (ArtColumn any)) (dom : Layout) : option bool :=
  if isLock nested then
    let sumOfColWidth := sum (map (@width any) (Flat.full (flat state))) in
    let nextNeedRenderLock := artTableClientWidth dom <? sumOfColWidth in
    if negb (Bool.eqb (needRenderLock state) nextNeedRenderLock)
    then Some nextNeedRenderLock
    else None
  else
    if needRenderLock state then Some false else None.

(** What [syncHorizontalScroll] does besides [updateOffsetX]: whether each
    lock shadow gets the class [show-shadow]. *)
Record LockShadows : Type := mkLockShadows {
  showLeftLockShadow : bool;
  showRightLockShadow : bool }.

Definition syncHorizontalScroll (state : BaseTableState any) (dom : Layout)
    (x : Z) : option (BaseTableState any) * LockShadows :=
  (updateOffsetX OVERSCAN_SIZE state x,
   mkLockShadows
     ((0 <? length (Flat.left (flat state)))%nat
      && needRenderLock state && (0 <? x))
     ((0 <? length (Flat.right (flat state)))%nat
      && needRenderLock state
      && (x <? bodyScrollWidth dom - bodyClientWidth dom))).

(** [syncHorizontalScrollFromTableBody]. *)
Definition syncHorizontalScrollFromTableBody (state : BaseTableState any)
    (dom : Layout) : option (BaseTableState any) * LockShadows :=
  syncHorizontalScroll state dom (bodyScrollLeft dom).

(** The [setState] calls of [didMountOrUpdate], by
    [syncHorizontalScrollFromTableBody], [updateStickyScroll] and
    [adjustNeedRenderLock] in that order.  React applies them together once
    the lifecycle method returns, so each reads the state the method began
    with. *)
Record StatePatch : Type := mkStatePatch {
  patchOffsetX : option Z;
  patchHasScroll : option bool;
  patchNeedRenderLock : option bool }.

Definition didMountOrUpdate (state : BaseTableState any)
    (nested : Flat.t (ArtColumn any)) (dom : Layout) : StatePatch :=
  mkStatePatch
    (option_map (@offsetX any)
       (fst (syncHorizontalScrollFromTableBody state dom)))
    (hasScrollSet (updateStickyScroll state (Some dom)))
    (adjustNeedRenderLock state nested dom).

(** The state once React has applied the patch. *)
Definition applyPatch (state : BaseTableState any) (patch : StatePatch)
    : BaseTableState any :=
  {| flat := flat state;
     hasScroll := nullish (patchHasScroll patch) (hasScroll state);
     needRenderLock :=
       nullish (patchNeedRenderLock patch) (needRenderLock state);
     useVirtual := useVirtual state;
     offsetY := offsetY state; maxRenderHeight := maxRenderHeight state;
     offsetX := nullish (patchOffsetX patch) (offsetX state);
     maxRenderWidth := maxRenderWidth state |}.

End Lifecycle.

(** A layout in which the table is narrower than its content. *)
Definition narrowLayout : Layout := mkLayout 300 300 500 15 120 500 300.

(** ** Vocabulary for the rows of a pass *)

(** The rows that a pass paints:
    [dataSource.slice(ver.topIndex, ver.bottomIndex)]. *)
Definition renderedRecords {any : Type} (dataSource : list any)
    (renderRange : FullRenderRange) : list any :=
  slice dataSource (topIndex (rangeVertical renderRange))
    (bottomIndex (rangeVertical renderRange)).

(** Every column to paint asks for spans of at least 1 in every row. *)
Definition asksPositiveSpans {any : Type}
    (wrappedCols : list (HozWrappedCol any)) : Prop :=
  forall (record : any) (rowIndex : Z) (col : ArtColumn any) (colIndex : Z),
    In (normal col colIndex) wrappedCols ->
    1 <= fst (requestedSpan record rowIndex col colIndex)
    /\ 1 <= snd (requestedSpan record rowIndex col colIndex).

(** [tallCells] behind a locked column on each side, with horizontal
    virtualisation on. *)
Definition tallLocked : BaseTableState unit :=
  {| flat := Flat.mk [col50; tallCells; tallCells] [col50] [tallCells]
               [tallCells];
     hasScroll := true; needRenderLock := true;
     useVirtual := mkUseVirtual true true true;
     offsetY := 0; maxRenderHeight := 600;
     offsetX := 0; maxRenderWidth := 800 |}.

(** ** renderTableBody and the deprecation warning *)

Module Props.
(** [BaseTableProps], the props that [renderTableBody] reads.
    [emptyContent] is [None] when the prop is [null] or [undefined], which
    the source does not tell apart.  [componentsEmptyContent] is
    [components.EmptyContent]: [None] when [undefined], [Some jsNull] when
    [null]. *)
Record t (any : Type) : Type := mk {
  dataSource : list any;
  isLoading : bool;
  emptyCellHeight : option Z;
  emptyContent : option ReactNode;
  componentsEmptyContent : option ComponentType }.
End Props.

(** The module-level flag [propsDotEmptyContentDeprecatedWarned] and what
    [console.warn] has been given, oldest first. *)
Record Console : Type := mkConsole {
  propsDotEmptyContentDeprecatedWarned : bool;
  warned : list string }.

(** The module as loaded. *)
Definition freshConsole : Console := mkConsole false [].

Definition deprecationMessage : string :=
  "[ali-react-table] BaseTable props.emptyContent 已经过时，请使用 props.components.EmptyContent 来自定义数据为空时的表格表现".

Definition warnPropsDotEmptyContentIsDeprecated : State Console unit :=
  fun c =>
    if negb (propsDotEmptyContentDeprecatedWarned c)
    then (tt, mkConsole true (warned c ++ [deprecationMessage]))
    else (tt, c).

(** What [renderTableBody] returns: the body of an empty range, holding an
    [EmptyTable], or the rows between the two virtual blanks.  The widths of
    the [col] elements are kept beside the nodes, [Attributes] having no
    width. *)
Inductive TableBody : Type :=
| emptyBody (cols : list Z) (table : ReactNode)
| rowsBody (cols : list Z) (topBlankHeight : Z)
    (rows : list (list RowChild)) (bottomBlankHeight : Z).

Section RenderBody.

Variable any : Type.
Context {SM : Type} {ops : SpanManagerOps SM}.

(** The component [() => emptyContent] that stands for a deprecated
    [emptyContent] node. *)
Variable constantComponent : ReactNode -> ComponentType.

(** The [colgroup] element: one [col] per wrapped column. *)
Definition colgroupOf (wrappedCols : list (HozWrappedCol any)) : ReactNode :=
  element "colgroup" noAttributes
    (map (fun _ => element "col" noAttributes []) wrappedCols).

(** [renderTableBody].  In the empty branch [EmptyContent == null] holds of
    [undefined] and of [null]; when no [emptyContent] replaces it, the value
    is handed on as it is, [null] included. *)
Definition renderTableBody (props : Props.t any)
    (state : BaseTableState any) (renderRange : FullRenderRange)
    : State Console TableBody :=
  let ver := rangeVertical renderRange in
  let hoz := rangeHorizontal renderRange in
  let wrappedCols := getFlatHozWrappedCols state hoz in
  let colgroup := colgroupOf wrappedCols in
  if Z.of_nat (bottomIndex ver) - Z.of_nat (topIndex ver) =? 0 then
    EmptyContent <-
      match Props.componentsEmptyContent props, Props.emptyContent props with
      | (None | Some jsNull), Some emptyContent =>
          warnPropsDotEmptyContentIsDeprecated ;;;
          ret (Some (constantComponent emptyContent))
      | EmptyContent, _ => ret EmptyContent
      end ;;
    ret (emptyBody (colgroupWidths wrappedCols)
           (EmptyTable
              {| colgroup := colgroup;
                 propColSpan := Z.of_nat (length wrappedCols);
                 isLoading := Props.isLoading props;
                 EmptyContent := EmptyContent;
                 emptyCellHeight := Props.emptyCellHeight props |}))
  else
    ret (rowsBody (colgroupWidths wrappedCols) (topBlank ver)
           (fst (renderRows state (Props.dataSource props) renderRange))
           (bottomBlank ver)).

(** One render of the body: the props, the state and the range it is
    given. *)
Definition Render : Type :=
  (Props.t any * BaseTableState any * FullRenderRange)%type.

(** The console after a sequence of renders, oldest first. *)
Definition consoleAfter (renders : list Render) (c : Console) : Console :=
  fold_left (fun c r =>
               snd (renderTableBody (fst (fst r)) (snd (fst r)) (snd r) c))
    renders c.

(** A render that uses the deprecated prop: its range is empty, its
    [components.EmptyContent] is [undefined] or [null] and it has an
    [emptyContent]. *)
Definition usesDeprecatedProp (r : Render) : bool :=
  let ver := rangeVertical (snd r) in
  (Z.of_nat (bottomIndex ver) - Z.of_nat (topIndex ver) =? 0)
  && match Props.componentsEmptyContent (fst (fst r)),
           Props.emptyContent (fst (fst r)) with
     | (None | Some jsNull), Some _ => true
     | _, _ => false
     end.

End RenderBody.

(** ** updateRowHeightManager *)

(** A [tr] of class [Classes.tableRow] found in the table: the number read
    from its [data-rowindex] ([None] for [NaN]), its [offsetTop] and its
    [offsetHeight]. *)
Record Tr : Type := mkTr {
  datasetRowIndex : option Z;
  offsetTop : Z;
  offsetHeight : Z }.

Section RowHeights.

Variable any : Type.

(** The row height manager of [helpers/rowHeightManager], which is not
    under src/: its type and the two methods the table calls, and
    [getFullRenderRange] beside them. *)
Variable RowHeightManager : Type.
Variable updateRow : RowHeightManager -> Z -> Z -> Z -> RowHeightManager.
Variable getRenderRange :
  RowHeightManager -> Z -> Z -> nat -> VerticalRenderRange.
Variable getFullRenderRange : nat -> VerticalRenderRange.

Definition getVerticalRenderRange (dataSource : list any)
    (state : BaseTableState any) (rowHeightManager : RowHeightManager)
    : VerticalRenderRange :=
  let rowCount := length dataSource in
  if vertical (useVirtual state)
  then getRenderRange rowHeightManager (offsetY state)
         (maxRenderHeight state) rowCount
  else getFullRenderRange rowCount.

(** The variables of the loop of [updateRowHeightManager]. *)
Record Measure : Type := mkMeasure {
  maxTrRowIndex : Z;
  maxTrBottom : Z;
  measured : RowHeightManager }.

(** The body of the loop, for one [tr]. *)
Definition measureRow (virtualTopHeight : Z) (m : Measure) (tr : Tr)
    : Measure :=
  match datasetRowIndex tr with
  | None => m
  | Some rowIndex =>
      let offset := offsetTop tr + virtualTopHeight in
      let size := offsetHeight tr in
      mkMeasure (Z.max (maxTrRowIndex m) rowIndex)
        (Z.max (maxTrBottom m) (offset + size))
        (updateRow (measured m) rowIndex offset size)
  end.

(** [updateRowHeightManager]: the manager after the loop, and whether
    [forceUpdate] is called.  [virtualTop] is the [clientHeight] of the top
    blank, [None] when there is none. *)
Definition updateRowHeightManager (dataSource : list any)
    (state : BaseTableState any) (rowHeightManager : RowHeightManager)
    (virtualTop : option Z) (trs : list Tr) : RowHeightManager * bool :=
  let virtualTopHeight := nullish virtualTop 0 in
  let m :=
    fold_left (measureRow virtualTopHeight) trs
      (mkMeasure (-1) (-1) rowHeightManager) in
  (measured m,
   if negb (maxTrRowIndex m =? -1) then
     if maxTrBottom m <? offsetY state + maxRenderHeight state then
       let vertical := getVerticalRenderRange dataSource state (measured m) in
       maxTrRowIndex m <? Z.of_nat (bottomIndex vertical) - 1
     else false
   else false).

End RowHeights.

(** Five rows of 100 pixels each, one below the other from 0. *)
Definition fiveRows : list Tr :=
  map (fun i => mkTr (Some (Z.of_nat i)) (Z.of_nat i * 100) 100) (seq 0 5).

(** ** The sort feature of the pipeline ([pipeline/features/sort.tsx]) *)

(** What [sortStep] causes when the transform reports new sorts: a call of
    the caller's [opts.onChangeSorts], or [pipeline.setStateAtKey]. *)
Inductive SortEffect (SortItem : Type) : Type :=
| callOnChangeSorts (nextSorts : list SortItem)
| callSetStateAtKey (stateKey : string) (nextSorts : list SortItem).

(** [TablePipeline] of [pipeline/pipeline], which is not under src/: the two
    methods that [sortStep] calls, the state of the key read as a list of
    sort items; [setStateAtKey] gives the pipeline of the next render. *)
Class TablePipelineOps (SortItem P : Type) : Type := {
  getStateAtKey : P -> string -> option (list SortItem);
  setStateAtKey : P -> string -> list SortItem -> P }.

Section Sort.

(** [SortItem] of [../../interfaces], and the fields of [SortOptions] that
    [sortStep] passes on untouched. *)
Variable SortItem : Type.
Variable OtherOptions : Type.
Context {P : Type} {pipelineOps : TablePipelineOps SortItem P}.

(** [SortFeatureOptions]; [hasOnChangeSorts] tells whether the caller gave
    an [onChangeSorts]. *)
Record SortFeatureOptions : Type := mkSortFeatureOptions {
  defaultSorts : option (list SortItem);
  optionSorts : option (list SortItem);
  optionKeepDataSource : option bool;
  hasOnChangeSorts : bool;
  otherOptions : OtherOptions }.

(** The options that [sortStep] hands to [makeSortTransform]. *)
Record SortTransformOptions : Type := mkSortTransformOptions {
  sorts : list SortItem;
  keepDataSource : option bool;
  onChangeSorts : list SortItem -> list (SortEffect SortItem);
  passedOn : OtherOptions }.

(** The argument of [makeSortTransform] in [sortStep]:
<<
  { ...opts,
    sorts: opts.sorts ?? pipeline.getStateAtKey(stateKey)
           ?? opts.defaultSorts ?? [],
    keepDataSource: opts.keepDataSource,
    onChangeSorts: (nextSorts) => {
      opts.onChangeSorts?.(nextSorts)
      pipeline.setStateAtKey(stateKey, nextSorts) } }
>> *)
Definition sortStep (opts : SortFeatureOptions) (pipeline : P)
    : SortTransformOptions :=
  let stateKey := "sort"%string in
  {| sorts :=
       nullish (optionSorts opts)
         (nullish (getStateAtKey pipeline stateKey)
            (nullish (defaultSorts opts) []));
     keepDataSource := optionKeepDataSource opts;
     onChangeSorts := fun nextSorts =>
       (if hasOnChangeSorts opts then [callOnChangeSorts nextSorts] else [])
       ++ [callSetStateAtKey stateKey nextSorts];
     passedOn := otherOptions opts |}.

(** The pipeline of the next render, once the effects have run. *)
Definition afterSortEffects (pipeline : P)
    (effects : list (SortEffect SortItem)) : P :=
  fold_left (fun p effect =>
               match effect with
               | callOnChangeSorts _ => p
               | callSetStateAtKey stateKey nextSorts =>
                   setStateAtKey p stateKey nextSorts
               end)
    effects pipeline.

End Sort.

(** A pipeline whose state is a list of keys with their sorts, the newest
    first. *)
#[export] Instance ListPipeline (SortItem : Type)
    : TablePipelineOps SortItem (list (string * list SortItem)) := {
  getStateAtKey p stateKey :=
    option_map snd (find (fun kv => String.eqb (fst kv) stateKey) p);
  setStateAtKey p stateKey nextSorts := (stateKey, nextSorts) :: p }.

(** * Theorems *)

(** ** Sums and slices *)

Lemma fold_add_shift (l : list Z) (a : Z) :
  fold_left Z.add l a = a + fold_left Z.add l 0.
Proof.
  revert a; induction l as [|x l IH]; intros a; simpl.
  - lia.
  - rewrite (IH (a + x)), (IH x). lia.
Qed.

Lemma sum_nil : sum [] = 0.
Proof. reflexivity. Qed.

Lemma sum_cons (x : Z) (l : list Z) : sum (x :: l) = x + sum l.
Proof. unfold sum; simpl. apply fold_add_shift. Qed.

Arguments sum : simpl never.

Lemma sum_app (l1 l2 : list Z) : sum (l1 ++ l2) = sum l1 + sum l2.
Proof.
  induction l1 as [|x l1 IH]; cbn [app].
  - change (sum []) with 0; lia.
  - rewrite !sum_cons, IH; lia.
Qed.

Lemma firstn_snoc {A : Type} (l : list A) (i : nat) (x : A) :
  nth_error l i = Some x -> firstn (S i) l = firstn i l ++ [x].
Proof.
  revert i; induction l as [|y l IH]; intros [|i] H; simpl in *;
    try discriminate.
  - now inversion H.
  - f_equal. now apply IH.
Qed.

Lemma slice_snoc {A : Type} (l : list A) (start k : nat) (x : A) :
  nth_error l (start + k) = Some x ->
  slice l start (S (start + k)) = slice l start (start + k) ++ [x].
Proof.
  intros H. unfold slice.
  replace (S (start + k) - start)%nat with (S k) by lia.
  replace (start + k - start)%nat with k by lia.
  apply firstn_snoc. now rewrite nth_error_skipn.
Qed.

Lemma slice_empty {A : Type} (l : list A) (start : nat) :
  slice l start start = [].
Proof. unfold slice. now rewrite Nat.sub_diag. Qed.

Lemma slice_split {A : Type} (l : list A) (a b : nat) :
  (a <= b)%nat -> l = firstn a l ++ slice l a b ++ skipn b l.
Proof.
  intros H. unfold slice.
  rewrite <- (firstn_skipn a l) at 1. f_equal.
  rewrite <- (firstn_skipn (b - a) (skipn a l)) at 1. f_equal.
  rewrite skipn_skipn. f_equal. lia.
Qed.

Lemma nth_error_width {any : Type} (center : list (ArtColumn any)) (i : nat)
    (col : ArtColumn any) :
  nth_error center i = Some col ->
  nth_error (map (@width any) center) i = Some (width col).
Proof. intros H. now rewrite nth_error_map, H. Qed.

(** The stopping point is determined by the widths, the start and the
    threshold. *)
Lemma reachesAt_unique (widths : list Z) (start : nat) (threshold : Z)
    (a b : nat) :
  reachesAt widths start threshold a ->
  reachesAt widths start threshold b ->
  a = b.
Proof.
  intros ([Ha1 Ha2] & Ha3 & Ha4) ([Hb1 Hb2] & Hb3 & Hb4).
  destruct (Nat.lt_trichotomy a b) as [Hlt|[Heq|Hgt]]; [|exact Heq|].
  - assert (threshold <= sum (slice widths start (S a))) by (apply Ha4; lia).
    assert (sum (slice widths start (S a)) < threshold) by (apply Hb3; lia).
    lia.
  - assert (threshold <= sum (slice widths start (S b))) by (apply Hb4; lia).
    assert (sum (slice widths start (S b)) < threshold) by (apply Ha3; lia).
    lia.
Qed.

(** ** The two loops of getHorizontalRenderRange *)

Section HorizontalRangeFacts.

Variable any : Type.
Variable OVERSCAN_SIZE : Z.

Implicit Types (center : list (ArtColumn any)) (state : BaseTableState any).

(** The first loop leaves through its own exit and returns the first index
    whose running width reaches the threshold, with the width before it. *)
Lemma leftLoop_spec center (T : Z) :
  forall fuel leftIndex leftBlank,
    (length center - leftIndex <= fuel)%nat ->
    (leftIndex <= length center)%nat ->
    leftBlank = sum (slice (map (@width any) center) 0 leftIndex) ->
    (forall j, (j < leftIndex)%nat ->
       sum (slice (map (@width any) center) 0 (S j)) < T) ->
    let r := leftLoop fuel center T leftIndex leftBlank in
    (leftIndex <= fst r)%nat
    /\ snd r = sum (slice (map (@width any) center) 0 (fst r))
    /\ reachesAt (map (@width any) center) 0 T (fst r).
Proof.
  induction fuel as [|fuel IH]; intros i acc Hfuel Hle Hacc Hbelow; simpl.
  - assert (i = length center) by lia; subst i.
    repeat split; auto; try lia.
    + rewrite length_map; lia.
    + intros j Hj; apply Hbelow; lia.
    + rewrite length_map; lia.
  - destruct (nth_error center i) as [col|] eqn:Hcol.
    + assert (Hi : (i < length center)%nat)
        by (apply nth_error_Some; congruence).
      pose proof (slice_snoc (map (@width any) center) 0 i
                    (nth_error_width _ _ Hcol)) as Hsnoc.
      simpl in Hsnoc.
      destruct (Z.ltb_spec (width col + acc) T) as [Hlt|Hge].
      * specialize (IH (S i) (acc + width col)).
        destruct IH as (H1 & H2 & H3); try lia.
        { rewrite Hsnoc, sum_app, sum_cons, sum_nil; lia. }
        { intros j Hj. destruct (Nat.eq_dec j i) as [->|Hne].
          - rewrite Hsnoc, sum_app, sum_cons, sum_nil; lia.
          - apply Hbelow; lia. }
        repeat split; try lia; try apply H3; auto.
      * simpl. repeat split; auto; try lia.
        { rewrite length_map; lia. }
        { intros j Hj; apply Hbelow; lia. }
        { intros _. rewrite Hsnoc, sum_app, sum_cons, sum_nil; lia. }
    + assert (i = length center)
        by (apply nth_error_None in Hcol; lia); subst i.
      simpl. repeat split; auto; try lia.
      * rewrite length_map; lia.
      * intros j Hj; apply Hbelow; lia.
      * rewrite length_map; lia.
Qed.

(** The second loop leaves through its own exit and returns the number of
    columns taken from [leftIndex] before the running width reaches the
    threshold, with their width. *)
Lemma centerLoop_spec center (T : Z) (leftIndex : nat) :
  forall fuel centerCount centerRenderWidth,
    (length center - (leftIndex + centerCount) <= fuel)%nat ->
    (leftIndex + centerCount <= length center)%nat ->
    centerRenderWidth
    = sum (slice (map (@width any) center) leftIndex
             (leftIndex + centerCount)) ->
    (forall j, (leftIndex <= j < leftIndex + centerCount)%nat ->
       sum (slice (map (@width any) center) leftIndex (S j)) < T) ->
    let r := centerLoop fuel center T leftIndex centerCount centerRenderWidth in
    (centerCount <= fst r)%nat
    /\ snd r
       = sum (slice (map (@width any) center) leftIndex (leftIndex + fst r))
    /\ reachesAt (map (@width any) center) leftIndex T (leftIndex + fst r).
Proof.
  induction fuel as [|fuel IH]; intros k acc Hfuel Hle Hacc Hbelow; simpl.
  - repeat split; auto; try lia.
    + rewrite length_map; lia.
    + rewrite length_map; lia.
  - destruct (nth_error center (leftIndex + k)) as [col|] eqn:Hcol.
    + assert (Hi : (leftIndex + k < length center)%nat)
        by (apply nth_error_Some; congruence).
      pose proof (slice_snoc (map (@width any) center) leftIndex k
                    (nth_error_width _ _ Hcol)) as Hsnoc.
      destruct (Z.ltb_spec (width col + acc) T) as [Hlt|Hge].
      * specialize (IH (S k) (acc + width col)).
        replace (leftIndex + S k)%nat with (S (leftIndex + k)) in IH by lia.
        destruct IH as (H1 & H2 & H3); try lia.
        { rewrite Hsnoc, sum_app, sum_cons, sum_nil; lia. }
        { intros j Hj. destruct (Nat.eq_dec j (leftIndex + k)) as [->|Hne].
          - rewrite Hsnoc, sum_app, sum_cons, sum_nil; lia.
          - apply Hbelow; lia. }
        repeat split; try lia; try apply H3; auto.
      * simpl. repeat split; auto; try lia.
        { rewrite length_map; lia. }
        { intros _. rewrite Hsnoc, sum_app, sum_cons, sum_nil; lia. }
    + apply nth_error_None in Hcol.
      simpl. repeat split; auto; try lia.
      * rewrite length_map; lia.
      * rewrite length_map; lia.
Qed.

End HorizontalRangeFacts.

Section HorizontalRangeTheorems.

Variable any : Type.
Variable OVERSCAN_SIZE : Z.

Implicit Types (state : BaseTableState any).

(** What the virtualised branch returns, in terms of the column widths. *)
Lemma getHorizontalRenderRange_virtual state :
  horizontal (useVirtual state) = true ->
  let widths := map (@width any) (Flat.center (flat state)) in
  let overscannedOffsetX := Z.max 0 (offsetX state - OVERSCAN_SIZE) in
  let r := getHorizontalRenderRange OVERSCAN_SIZE state in
  reachesAt widths 0 overscannedOffsetX (leftIndex r)
  /\ leftBlank r = sum (slice widths 0 (leftIndex r))
  /\ reachesAt widths (leftIndex r)
       (maxRenderWidth state + (overscannedOffsetX - leftBlank r)
        + 2 * OVERSCAN_SIZE)
       (rightIndex r)
  /\ rightBlank r = sum (sliceFrom widths (rightIndex r)).
Proof.
  intros Hvirtual. unfold getHorizontalRenderRange. rewrite Hvirtual.
  cbn [negb].
  set (center := Flat.center (flat state)).
  set (T := Z.max 0 (offsetX state - OVERSCAN_SIZE)).
  pose proof (@leftLoop_spec any center T (length center) 0%nat 0) as Hleft.
  destruct (leftLoop (length center) center T 0 0) as [li lb] eqn:El.
  cbn [fst snd] in Hleft.
  destruct Hleft as (_ & Hlb & Hreach);
    try solve [lia | now rewrite slice_empty | intros j Hj; lia].
  set (T2 := maxRenderWidth state + (T - lb) + 2 * OVERSCAN_SIZE).
  assert (Hli : (li <= length center)%nat).
  { destruct Hreach as [[_ H] _]. now rewrite length_map in H. }
  pose proof (@centerLoop_spec any center T2 li (length center) 0%nat 0)
    as Hcenter.
  destruct (centerLoop (length center) center T2 li 0 0) as [cc crw] eqn:Ec.
  cbn [fst snd] in Hcenter.
  destruct Hcenter as (_ & Hcrw & Hreach2);
    try solve [lia | now rewrite Nat.add_0_r, slice_empty | intros j Hj; lia].
  cbn [leftIndex leftBlank rightIndex rightBlank].
  repeat split; try apply Hreach; try apply Hreach2; auto.
  unfold sliceFrom. rewrite skipn_map. do 3 f_equal.
  destruct Hreach2 as [[_ H] _]. rewrite length_map in H.
  fold center. lia.
Qed.

(** C1 (amended): in every state [leftIndex <= rightIndex]; with horizontal
    virtualisation on, [rightIndex] is at most the number of center columns;
    with it off, [leftIndex] is 0 and [rightIndex] is the number of all leaf
    columns, [flat.full.length]. *)
Theorem horizontal_range_bounds state :
  let r := getHorizontalRenderRange OVERSCAN_SIZE state in
  (0 <= leftIndex r <= rightIndex r)%nat
  /\ (if horizontal (useVirtual state)
      then (rightIndex r <= length (Flat.center (flat state)))%nat
      else leftIndex r = 0%nat
           /\ rightIndex r = length (Flat.full (flat state))).
Proof.
  destruct (horizontal (useVirtual state)) eqn:Hvirtual.
  - destruct (getHorizontalRenderRange_virtual state Hvirtual)
      as (_ & _ & [[Hlo Hhi] _] & _).
    rewrite length_map in Hhi. cbv zeta. lia.
  - unfold getHorizontalRenderRange. rewrite Hvirtual.
    cbn [negb leftIndex rightIndex]. lia.
Qed.

(** C4 (amended): with horizontal virtualisation off the range is
    [{leftIndex: 0, leftBlank: 0, rightIndex: flat.full.length,
    rightBlank: 0}], the count being that of all leaf columns. *)
Theorem horizontal_range_not_virtual state :
  horizontal (useVirtual state) = false ->
  getHorizontalRenderRange OVERSCAN_SIZE state
  = mkHoz 0 0 (length (Flat.full (flat state))) 0.
Proof.
  intros Hvirtual. unfold getHorizontalRenderRange. now rewrite Hvirtual.
Qed.

(** With horizontal virtualisation on, [leftIndex] is the first center
    column whose trailing edge reaches [max(0, offsetX - OVERSCAN_SIZE)] (the
    number of center columns when none does) and [leftBlank] is the width of
    the columns before it. *)
Lemma leftIndex_first_reaching state :
  horizontal (useVirtual state) = true ->
  let widths := map (@width any) (Flat.center (flat state)) in
  let r := getHorizontalRenderRange OVERSCAN_SIZE state in
  reachesAt widths 0 (Z.max 0 (offsetX state - OVERSCAN_SIZE)) (leftIndex r)
  /\ leftBlank r = sum (slice widths 0 (leftIndex r)).
Proof.
  intros Hvirtual.
  destruct (getHorizontalRenderRange_virtual state Hvirtual)
    as (H1 & H2 & _).
  now split.
Qed.


(** The second loop tests [col.width + centerRenderWidth <
    minCenterRenderWidth] before it takes a column, so the column on which
    the running width reaches the threshold is left out: whenever a center
    column is rendered, the rendered width is below [minCenterRenderWidth],
    which the comment above its definition calls the width that the center
    part has to render at least. *)
Lemma rendered_width_below_minCenterRenderWidth state :
  horizontal (useVirtual state) = true ->
  let widths := map (@width any) (Flat.center (flat state)) in
  let r := getHorizontalRenderRange OVERSCAN_SIZE state in
  (leftIndex r < rightIndex r)%nat ->
  sum (slice widths (leftIndex r) (rightIndex r))
  < maxRenderWidth state
    + (Z.max 0 (offsetX state - OVERSCAN_SIZE) - leftBlank r)
    + 2 * OVERSCAN_SIZE.
Proof.
  intros Hvirtual widths r Hlt.
  destruct (getHorizontalRenderRange_virtual state Hvirtual)
    as (_ & _ & (_ & Hbelow & _) & _).
  fold widths r in Hbelow.
  specialize (Hbelow (rightIndex r - 1)%nat).
  replace (S (rightIndex r - 1)) with (rightIndex r) in Hbelow by lia.
  apply Hbelow. lia.
Qed.

(** C9 (amended): with horizontal virtualisation on and integer widths,
    offset, viewport width and overscan within the magnitude in which
    binary64 arithmetic is exact, the left blank, the widths of the columns
    in [[leftIndex, rightIndex)] and the right blank add up to the width of
    all center columns. *)
Theorem integer_widths_conserved state :
  exactInBinary64 OVERSCAN_SIZE state ->
  horizontal (useVirtual state) = true ->
  let center := Flat.center (flat state) in
  let r := getHorizontalRenderRange OVERSCAN_SIZE state in
  leftBlank r
  + sum (map (@width any) (slice center (leftIndex r) (rightIndex r)))
  + rightBlank r
  = sum (map (@width any) center).
Proof.
  intros _ Hvirtual center r.
  destruct (getHorizontalRenderRange_virtual state Hvirtual)
    as (_ & Hlb & [[Hle _] _] & Hrb).
  fold center r in Hlb, Hrb, Hle.
  rewrite Hlb, Hrb.
  unfold slice at 2, sliceFrom.
  rewrite <- firstn_map, <- skipn_map. fold (slice (map (@width any) center)
    (leftIndex r) (rightIndex r)).
  rewrite (slice_split (map (@width any) center) Hle) at 4.
  rewrite !sum_app. unfold slice at 1.
  rewrite Nat.sub_0_r. cbn [skipn]. lia.
Qed.

End HorizontalRangeTheorems.

(** C1, counterexample: a well-formed state with a locked column and
    horizontal virtualisation off, whose [rightIndex] is 5 while it has four
    center columns. *)
Lemma horizontal_range_exceeds_center :
  flatWellFormed (flat lockedColumns)
  /\ horizontal (useVirtual lockedColumns) = false
  /\ ~ (let r := getHorizontalRenderRange 100 lockedColumns in
        (0 <= leftIndex r <= rightIndex r)%nat
        /\ (rightIndex r <= length (Flat.center (flat lockedColumns)))%nat).
Proof.
  split; [reflexivity|]. split; [reflexivity|].
  cbv. intros [_ H]. repeat apply le_S_n in H. inversion H.
Qed.

(** C4, counterexample: in that state the range returned is not
    [{0, 0, centerColumns.length, 0}]. *)
Lemma horizontal_range_not_center_length :
  horizontal (useVirtual lockedColumns) = false
  /\ getHorizontalRenderRange 100 lockedColumns
     <> mkHoz 0 0 (length (Flat.center (flat lockedColumns))) 0.
Proof. split; [reflexivity | discriminate]. Qed.

Lemma horizontal_range_not_virtual_witness :
  horizontal (useVirtual lockedColumns) = false
  /\ getHorizontalRenderRange 100 lockedColumns = mkHoz 0 0 5 0.
Proof.
  split; [reflexivity|].
  exact (horizontal_range_not_virtual 100 lockedColumns eq_refl).
Defined.

(** C3 (amended): the general part, and the example: for center widths
    [[50,50,50,50,50]], a viewport of 100, [offsetX = 120] and an overscan of
    20, the first column whose trailing edge reaches 100 is the one of
    index 1, and that is [leftIndex]. *)
Theorem leftIndex_first_reaching_example :
  forall (any : Type) (OVERSCAN_SIZE : Z) (state : BaseTableState any),
    horizontal (useVirtual state) = true ->
    let widths := map (@width any) (Flat.center (flat state)) in
    let r := getHorizontalRenderRange OVERSCAN_SIZE state in
    (reachesAt widths 0 (Z.max 0 (offsetX state - OVERSCAN_SIZE)) (leftIndex r)
     /\ leftBlank r = sum (slice widths 0 (leftIndex r)))
    /\ leftIndex (getHorizontalRenderRange 20 fiveColumns) = 1%nat
    /\ leftBlank (getHorizontalRenderRange 20 fiveColumns) = 50.
Proof.
  intros any O state Hvirtual. split.
  - now apply leftIndex_first_reaching.
  - split; reflexivity.
Qed.

Lemma leftIndex_first_reaching_example_witness :
  horizontal (useVirtual fiveColumns) = true
  /\ reachesAt [50; 50; 50; 50; 50] 0 100
       (leftIndex (getHorizontalRenderRange 20 fiveColumns)).
Proof.
  split; [reflexivity|].
  exact (proj1 (proj1
    (leftIndex_first_reaching_example 20 fiveColumns eq_refl))).
Defined.

(** C3, counterexample: in the example of the claim [leftIndex] is not 2. *)
Lemma leftIndex_example_not_2 :
  leftIndex (getHorizontalRenderRange 20 fiveColumns) <> 2%nat.
Proof. discriminate. Qed.



(** The five 50-pixel columns scrolled to 120 in a 100-pixel viewport lie
    within the magnitude in which binary64 arithmetic is exact. *)
Lemma fiveColumns_exact : exactInBinary64 20 fiveColumns.
Proof. vm_compute. discriminate. Defined.

Lemma integer_widths_conserved_witness :
  exactInBinary64 20 fiveColumns
  /\ horizontal (useVirtual fiveColumns) = true
  /\ 50 + sum [50; 50; 50] + 50 = sum [50; 50; 50; 50; 50].
Proof.
  split; [exact fiveColumns_exact|]. split; [reflexivity|].
  exact (integer_widths_conserved fiveColumns_exact eq_refl).
Defined.

(** On the five 50-pixel columns the binary64 run and the integer run
    return the same range. *)
Lemma binary64_agrees_on_fiveColumns :
  let r := Binary64.getHorizontalRenderRange 20 Binary64.fiveColumns in
  let z := getHorizontalRenderRange 20 fiveColumns in
  Binary64.leftIndex r = leftIndex z
  /\ Binary64.rightIndex r = rightIndex z
  /\ (Binary64.toQ (Binary64.leftBlank r) == inject_Z (leftBlank z))%Q
  /\ (Binary64.toQ (Binary64.rightBlank r) == inject_Z (rightBlank z))%Q.
Proof. repeat split. Qed.

(** C9, counterexample: ten columns of 100.1 pixels, scrolled to 500 in a
    300-pixel viewport under an overscan of 100.  The range is
    [leftIndex = 3], [rightIndex = 8]; the left blank is the rounded sum
    300.29999999999995, and the left blank, the rendered widths and the
    right blank add up to 1001.0 where the ten widths add up to
    1001.0000000000001.  The two sides differ as real numbers too, the
    sums taken without rounding. *)
Lemma binary64_width_not_conserved :
  let state := Binary64.tenColumns in
  let r := Binary64.getHorizontalRenderRange 100 state in
  let rendered :=
    slice (Binary64.center state) (Binary64.leftIndex r)
      (Binary64.rightIndex r) in
  (Binary64.leftIndex r = 3 /\ Binary64.rightIndex r = 8)%nat
  /\ PrimFloat.eqb
       (Binary64.leftBlank r + Binary64.sum rendered
        + Binary64.rightBlank r)%float
       (Binary64.sum (Binary64.center state))
     = false
  /\ ~ (Binary64.toQ (Binary64.leftBlank r)
        + Binary64.sumQ (map Binary64.toQ rendered)
        + Binary64.toQ (Binary64.rightBlank r)
        == Binary64.sumQ (map Binary64.toQ (Binary64.center state)))%Q.
Proof.
  split; [split; vm_compute; reflexivity|].
  split; [vm_compute; reflexivity|].
  unfold Qeq. vm_compute. discriminate.
Qed.

(** ** renderCell and the render pass *)

Section BodyTheorems.

Variable any : Type.
Context {SM : Type} {ops : SpanManagerOps SM}.
Variable state : BaseTableState any.
Variable renderRange : FullRenderRange.


(** What one call of [renderCell] does. *)
Lemma renderCell_spec (record : any) (rowIndex : Z) (column : ArtColumn any)
    (colIndex : Z) (s : PassState) :
  let r := renderCell state renderRange record rowIndex column colIndex s in
  match fst r with
  | None =>
      testSkip (spanManager s) rowIndex colIndex = true /\ snd r = s
  | Some cell =>
      testSkip (spanManager s) rowIndex colIndex = false
      /\ cellRowIndex cell = rowIndex
      /\ cellColIndex cell = colIndex
      /\ rowSpan cell
         = Z.min (snd (requestedSpan record rowIndex column colIndex))
             (Z.of_nat (bottomIndex (rangeVertical renderRange)) - rowIndex)
      /\ colSpan cell
         = Z.min (fst (requestedSpan record rowIndex column colIndex))
             (Z.of_nat (length (Flat.left (flat state)))
              + Z.of_nat (rightIndex (rangeHorizontal renderRange))
              - colIndex)
      /\ cellHasSpan cell = spans cell
      /\ registered (snd r)
         = registered s ++ (if spans cell then [registrationOf cell] else [])
      /\ spanManager (snd r)
         = (if spans cell
            then add (spanManager s) rowIndex colIndex
                   (colSpan cell) (rowSpan cell)
            else spanManager s)
      /\ tdColSpan cell
         = (if spans cell then Some (colSpan cell)
            else cellColSpan (cellPropsOf record rowIndex column))
      /\ tdRowSpan cell
         = (if spans cell then Some (rowSpan cell)
            else cellRowSpan (cellPropsOf record rowIndex column))
  end.
Proof.
  unfold renderCell, bind, spanManager_testSkip. cbv zeta.
  destruct (testSkip (spanManager s) rowIndex colIndex) eqn:Hskip.
  - now split.
  - destruct (requestedSpan record rowIndex column colIndex)
      as [colSpan0 rowSpan0].
    unfold spans, registrationOf.
    match goal with
    | |- context [if ?b then spanManager_add _ _ _ _ else _] =>
        destruct b eqn:Hspan
    end; cbn; rewrite ?Hspan; cbn; rewrite ?app_nil_r;
      destruct s; repeat split; reflexivity.
Qed.

Lemma mapM_cons {S A B : Type} (f : A -> State S B) (a : A) (l : list A)
    (s : S) :
  mapM f (a :: l) s
  = let '(b, s1) := f a s in
    let '(bs, s2) := mapM f l s1 in
    (b :: bs, s2).
Proof.
  cbn [mapM]. unfold bind, ret.
  destruct (f a s) as [b s1]. now destruct (mapM f l s1).
Qed.

Lemma renderCell_facts (record : any) (rowIndex : Z) (column : ArtColumn any)
    (colIndex : Z) (s : PassState) (cell : Cell) (s' : PassState) :
  renderCell state renderRange record rowIndex column colIndex s
  = (Some cell, s') ->
  cellRowIndex cell = rowIndex /\ cellColIndex cell = colIndex
  /\ cellHasSpan cell = spans cell
  /\ registered s'
     = registered s ++ map registrationOf (filter spans [cell]).
Proof.
  intros H.
  pose proof (renderCell_spec record rowIndex column colIndex s) as Hspec.
  rewrite H in Hspec. cbn [fst snd] in Hspec.
  destruct Hspec as (_ & Hr & Hc & Hrs & Hcs & Hhas & Hreg & _).
  repeat split; auto.
  rewrite Hreg. cbn [filter]. now destruct (spans cell).
Qed.




End BodyTheorems.

(** The columns to paint carry distinct indices when [flat] is well
    formed. *)
Lemma colIndexes_app {any : Type} (a b : list (HozWrappedCol any)) :
  colIndexes (a ++ b) = colIndexes a ++ colIndexes b.
Proof. unfold colIndexes. apply flat_map_app. Qed.

Lemma colIndexes_mapi {any : Type} (f : nat -> Z)
    (cols : list (ArtColumn any)) :
  forall k,
    colIndexes (mapi (fun col i => normal col (f i)) k cols)
    = map f (seq k (length cols)).
Proof.
  induction cols as [|col cols IH]; intros k; cbn.
  - reflexivity.
  - f_equal. apply IH.
Qed.




(** The [td] of a cell that spans carries the clipped spans, and so ends
    at or before the last row of the vertical range. *)
Lemma spanning_td_ends_within_rows :
  forall (any SM : Type) (ops : SpanManagerOps SM)
         (state : BaseTableState any) (renderRange : FullRenderRange)
         (record : any) (rowIndex : Z) (column : ArtColumn any)
         (colIndex : Z) (s : PassState) (cell : Cell) (s' : PassState),
    renderCell state renderRange record rowIndex column colIndex s
    = (Some cell, s') ->
    cellHasSpan cell = true ->
    tdColSpan cell = Some (colSpan cell)
    /\ tdRowSpan cell = Some (rowSpan cell)
    /\ cellRowIndex cell + tdRows cell
       <= Z.of_nat (bottomIndex (rangeVertical renderRange)).
Proof.
  intros any SM ops state renderRange record rowIndex column colIndex s cell
    s' Hcell Hspan.
  pose proof (renderCell_spec state renderRange record rowIndex column
                colIndex s) as Hspec.
  rewrite Hcell in Hspec. cbn [fst snd] in Hspec.
  destruct Hspec as (_ & Hr & _ & Hrs & _ & Hhas & _ & _ & Htc & Htr).
  rewrite Hhas in Hspan. rewrite Hspan in Htc, Htr.
  split; [exact Htc|]. split; [exact Htr|].
  unfold tdRows. rewrite Htr. cbn [nullish]. lia.
Qed.

(** The [td] of a cell that does not span carries the spans of its cell
    props as they are. *)
Lemma plain_td_keeps_cellProps :
  forall (any SM : Type) (ops : SpanManagerOps SM)
         (state : BaseTableState any) (renderRange : FullRenderRange)
         (record : any) (rowIndex : Z) (column : ArtColumn any)
         (colIndex : Z) (s : PassState) (cell : Cell) (s' : PassState),
    renderCell state renderRange record rowIndex column colIndex s
    = (Some cell, s') ->
    cellHasSpan cell = false ->
    tdColSpan cell = cellColSpan (cellPropsOf record rowIndex column)
    /\ tdRowSpan cell = cellRowSpan (cellPropsOf record rowIndex column).
Proof.
  intros any SM ops state renderRange record rowIndex column colIndex s cell
    s' Hcell Hspan.
  pose proof (renderCell_spec state renderRange record rowIndex column
                colIndex s) as Hspec.
  rewrite Hcell in Hspec. cbn [fst snd] in Hspec.
  destruct Hspec as (_ & _ & _ & _ & _ & Hhas & _ & _ & Htc & Htr).
  rewrite Hhas in Hspan. rewrite Hspan in Htc, Htr. now split.
Qed.

(** C5: the code at the failing inputs.  The example of the claim holds: a
    cell that asks for a [rowSpan] of 5 at row 8 with [bottomIndex = 10] is
    painted with a [rowSpan] of 2.  But the clipped spans are written to the
    [td] only when one of them exceeds 1: in the pass over the rows 0 to 5
    of [tallTable], the cell of row 5 is clipped to 1 by 1 and its [td]
    keeps the [rowSpan] of 5 of its cell props, ending at row 10, past
    [bottomIndex = 6].  And with horizontal virtualisation off the column
    bound [leftFlatCount + hoz.rightIndex - colIndex] counts the left-locked
    columns twice: the last of the five columns of [lockedWide] is painted
    with a [colSpan] of 2 where one column is painted from it on. *)
Theorem td_spans_exceed_render_range :
  option_map tdRowSpan
    (fst (renderCell tallTable tallRange tt 8 tallCells 0
            (mkPass (newSpanManager (SM := list SpanRect.t)) [])))
  = Some (Some 2)
  /\ (let cells :=
        flat_map cellsOfRow
          (fst (renderRows (SM := list SpanRect.t) tallTable tallData
                  shortRange)) in
      cells = [mkCell 0 0 1 5 true (Some 1) (Some 5);
               mkCell 5 0 1 1 false None (Some 5)]
      /\ ~ Forall (withinRange tallTable shortRange) cells)
  /\ (let renderRange :=
        mkRange (mkVer 0 0 1 0) (getHorizontalRenderRange 100 lockedWide) in
      let cells :=
        flat_map cellsOfRow
          (fst (renderRows (SM := list SpanRect.t) lockedWide [tt]
                  renderRange)) in
      nth_error cells 4 = Some (mkCell 0 4 2 1 true (Some 2) (Some 1))
      /\ renderedColumnCountFrom lockedWide (rangeHorizontal renderRange) 4
         = 1
      /\ ~ Forall (withinRange lockedWide renderRange) cells).
Proof.
  split; [reflexivity|]. split.
  - split; [reflexivity|].
    intros Hall. vm_compute in Hall.
    inversion Hall as [|c cs _ Hrest]; subst.
    inversion Hrest as [|c' cs' [Hrow _] _]; subst.
    now apply Hrow.
  - split; [reflexivity|]. split; [reflexivity|].
    intros Hall. rewrite Forall_forall in Hall.
    specialize (Hall (mkCell 0 4 2 1 true (Some 2) (Some 1))).
    assert (Hin : In (mkCell 0 4 2 1 true (Some 2) (Some 1))
                    (flat_map cellsOfRow
                       (fst (renderRows (SM := list SpanRect.t) lockedWide
                               [tt]
                               (mkRange (mkVer 0 0 1 0)
                                  (getHorizontalRenderRange 100
                                     lockedWide)))))).
    { vm_compute. tauto. }
    destruct (Hall Hin) as [_ Hcol]. vm_compute in Hcol. now apply Hcol.
Qed.



(** ** Hysteresis of the viewport geometry *)

Section GeometryTheorems.

Variable any : Type.
Variable OVERSCAN_SIZE : Z.

Implicit Types (c : Coordinator any) (parts : list VisiblePart).

Lemma onVisiblePart_useVirtual c (part : VisiblePart) :
  useVirtual (tableState (fst (onVisiblePart OVERSCAN_SIZE c part)))
  = useVirtual (tableState c).
Proof.
  unfold onVisiblePart.
  destruct (horizontal _ || vertical _); [|reflexivity].
  destruct (distinctUntilChanged _ _ _) as [[v|] m]; reflexivity.
Qed.

(** The operator's memory after one event: the event when it passed, the
    memory before otherwise. *)
Lemma onVisiblePart_remembered c (part : VisiblePart) :
  remembered (fst (onVisiblePart OVERSCAN_SIZE c part))
  = match snd (onVisiblePart OVERSCAN_SIZE c part) with
    | Some v => Some v
    | None => remembered c
    end.
Proof.
  unfold onVisiblePart, distinctUntilChanged.
  destruct (horizontal _ || vertical _); [|reflexivity].
  destruct (remembered c) as [previous|]; [|reflexivity].
  destruct (sizeAndOffsetUnchanged _ previous _); reflexivity.
Qed.

(** Along a run the operator remembers the last event that passed, and the
    virtualisation flags stay as they are. *)
Lemma onVisibleParts_remembered parts :
  forall c,
    let run := onVisibleParts OVERSCAN_SIZE c parts in
    remembered (fst run) = lastPassed (snd run) (remembered c)
    /\ useVirtual (tableState (fst run)) = useVirtual (tableState c).
Proof.
  induction parts as [|part rest IH]; intros c.
  - now split.
  - cbv zeta. cbn [onVisibleParts].
    pose proof (onVisiblePart_remembered c part) as Hmem.
    pose proof (onVisiblePart_useVirtual c part) as Hvirtual.
    destruct (onVisiblePart OVERSCAN_SIZE c part) as [c1 update].
    specialize (IH c1). cbv zeta in IH.
    destruct (onVisibleParts OVERSCAN_SIZE c1 rest) as [c2 updates].
    cbn [fst snd] in *. destruct IH as [IH1 IH2].
    split; [|congruence].
    rewrite IH1, Hmem. destruct update; reflexivity.
Qed.

Lemma sizeAndOffsetUnchanged_iff (x y : SizeAndOffset.t) :
  sizeAndOffsetUnchanged OVERSCAN_SIZE x y = true
  <-> 2 * Z.abs (SizeAndOffset.maxRenderWidth x
                 - SizeAndOffset.maxRenderWidth y) < OVERSCAN_SIZE
      /\ 2 * Z.abs (SizeAndOffset.maxRenderHeight x
                    - SizeAndOffset.maxRenderHeight y) < OVERSCAN_SIZE
      /\ 2 * Z.abs (SizeAndOffset.offsetY x - SizeAndOffset.offsetY y)
         < OVERSCAN_SIZE.
Proof.
  unfold sizeAndOffsetUnchanged.
  rewrite !andb_true_iff, !Z.ltb_lt. tauto.
Qed.

End GeometryTheorems.

(** C6 (amended): a viewport geometry event is compared with the last event
    that passed, not with the event just before it.  When neither axis is
    virtualised no event passes.  Otherwise the first event passes, and a
    later one triggers no state update when [maxRenderWidth],
    [maxRenderHeight] and [offsetY] all differ from those of the last event
    that passed by less than [OVERSCAN_SIZE / 2], and passes, updating the
    state, when one of them differs by at least that.  [updateOffsetX]
    compares the new offset with [state.offsetX] under the same threshold,
    and only when the horizontal axis is virtualised. *)
Theorem hysteresis_against_last_passed :
  forall (any : Type) (OVERSCAN_SIZE : Z) (state : BaseTableState any)
         (parts : list VisiblePart) (part : VisiblePart),
    let run := onVisibleParts OVERSCAN_SIZE (mounted state) parts in
    let value := toSizeAndOffset part in
    snd (onVisiblePart OVERSCAN_SIZE (fst run) part)
    = (if horizontal (useVirtual state) || vertical (useVirtual state)
       then match lastPassed (snd run) None with
            | None => Some value
            | Some last =>
                if sizeAndOffsetUnchanged OVERSCAN_SIZE last value
                then None else Some value
            end
       else None)
    /\ (forall x y,
          sizeAndOffsetUnchanged OVERSCAN_SIZE x y = true
          <-> 2 * Z.abs (SizeAndOffset.maxRenderWidth x
                         - SizeAndOffset.maxRenderWidth y) < OVERSCAN_SIZE
              /\ 2 * Z.abs (SizeAndOffset.maxRenderHeight x
                            - SizeAndOffset.maxRenderHeight y) < OVERSCAN_SIZE
              /\ 2 * Z.abs (SizeAndOffset.offsetY x - SizeAndOffset.offsetY y)
                 < OVERSCAN_SIZE)
    /\ (let state' :=
          tableState (fst (onVisiblePart OVERSCAN_SIZE (fst run) part)) in
        match snd (onVisiblePart OVERSCAN_SIZE (fst run) part) with
        | Some v =>
            offsetY state' = SizeAndOffset.offsetY v
            /\ maxRenderHeight state' = SizeAndOffset.maxRenderHeight v
            /\ maxRenderWidth state' = SizeAndOffset.maxRenderWidth v
        | None =>
            state' = tableState (fst run)
            /\ getHorizontalRenderRange OVERSCAN_SIZE state'
               = getHorizontalRenderRange OVERSCAN_SIZE (tableState (fst run))
        end)
    /\ (forall x,
          updateOffsetX OVERSCAN_SIZE state x = None
          <-> horizontal (useVirtual state) = false
              \/ 2 * Z.abs (x - offsetX state) < OVERSCAN_SIZE)
    /\ (forall x state',
          updateOffsetX OVERSCAN_SIZE state x = Some state' ->
          state' = setOffsetX state x).
Proof.
  intros any O state parts part run value.
  destruct (onVisibleParts_remembered O parts (mounted state))
    as [Hmem Hvirtual].
  fold run in Hmem, Hvirtual. cbn [mounted remembered tableState] in *.
  split; [|split; [|split; [|split]]].
  - unfold onVisiblePart, distinctUntilChanged.
    rewrite Hvirtual, Hmem. fold value.
    destruct (horizontal _ || vertical _); [|reflexivity].
    destruct (lastPassed (snd run) None) as [last|]; [|reflexivity].
    destruct (sizeAndOffsetUnchanged O last value); reflexivity.
  - apply sizeAndOffsetUnchanged_iff.
  - unfold onVisiblePart, distinctUntilChanged.
    destruct (horizontal _ || vertical _); [|now split].
    destruct (remembered (fst run)) as [last|].
    + destruct (sizeAndOffsetUnchanged O last _); cbn; auto.
    + cbn. auto.
  - intros x. unfold updateOffsetX.
    destruct (horizontal (useVirtual state)).
    + destruct (Z.leb_spec O (2 * Z.abs (x - offsetX state))) as [Hge|Hlt].
      * split; [discriminate|]. intros [Hoff|Hnear]; [discriminate|lia].
      * split; auto.
    + split; auto.
  - intros x state'. unfold updateOffsetX.
    destruct (horizontal (useVirtual state)); [|discriminate].
    destruct (O <=? 2 * Z.abs (x - offsetX state)); [|discriminate].
    now intros [= <-].
Qed.

Lemma hysteresis_against_last_passed_witness :
  snd (onVisiblePart 100
         (fst (onVisibleParts 100 (mounted fiveColumns)
                 [viewportAt 0; viewportAt 40]))
         (viewportAt 80))
  = Some (SizeAndOffset.mk 600 800 80)
  /\ snd (onVisiblePart 100
            (fst (onVisibleParts 100 (mounted fiveColumns)
                    [viewportAt 0; viewportAt 40]))
            (viewportAt 49))
     = None.
Proof.
  split.
  - exact (proj1 (hysteresis_against_last_passed 100 fiveColumns
                    [viewportAt 0; viewportAt 40] (viewportAt 80))).
  - exact (proj1 (hysteresis_against_last_passed 100 fiveColumns
                    [viewportAt 0; viewportAt 40] (viewportAt 49))).
Defined.

(** C6, counterexample: with an overscan of 100, the events at vertical
    offsets 0, 40 and 80 over an unchanged clip rectangle: the third differs
    from the second by 40, less than 50, and still updates the state. *)
Lemma consecutive_close_events_update :
  sizeAndOffsetUnchanged 100 (toSizeAndOffset (viewportAt 40))
    (toSizeAndOffset (viewportAt 80)) = true
  /\ snd (onVisibleParts 100 (mounted fiveColumns)
            [viewportAt 0; viewportAt 40; viewportAt 80])
     = [Some (SizeAndOffset.mk 600 800 0); None;
        Some (SizeAndOffset.mk 600 800 80)]
  /\ ~ consecutiveHysteresis 100 fiveColumns.
Proof.
  split; [reflexivity|]. split; [reflexivity|].
  intros H.
  specialize (H [viewportAt 0] (viewportAt 40) (viewportAt 80) eq_refl).
  discriminate H.
Qed.

(** ** Subscriptions *)

Lemma nth_error_close (subs : list Subscriber) :
  forall id j,
    nth_error (close id subs) j
    = if Nat.eqb j id
      then option_map (fun sub => mkSubscriber (sources sub) true)
             (nth_error subs j)
      else nth_error subs j.
Proof.
  induction subs as [|sub subs IH]; intros [|id] [|j]; cbn; try reflexivity.
  - now destruct (Nat.eqb j id).
  - apply IH.
Qed.

Lemma length_close (subs : list Subscriber) (id : nat) :
  length (close id subs) = length subs.
Proof.
  revert id; induction subs as [|sub subs IH]; intros [|id]; cbn; auto.
Qed.

Lemma close_last (subs : list Subscriber) (sub : Subscriber) :
  close (length subs) (subs ++ [sub])
  = subs ++ [mkSubscriber (sources sub) true].
Proof.
  induction subs as [|x subs IH]; cbn; [reflexivity|]. now rewrite IH.
Qed.

Lemma closedAt_close (subs : list Subscriber) (id j : nat) :
  j = id \/ closedAt subs j -> closedAt (close id subs) j.
Proof.
  intros H sub. rewrite nth_error_close.
  destruct (Nat.eqb_spec j id) as [->|Hne].
  - destruct (nth_error subs id); cbn; [|discriminate]. now intros [= <-].
  - destruct H as [H|H]; [contradiction|]. apply H.
Qed.

Lemma closedAt_closeAll (ids : list nat) :
  forall (subs : list Subscriber) (j : nat),
    In j ids \/ closedAt subs j ->
    closedAt (fold_left (fun subs id => close id subs) ids subs) j.
Proof.
  induction ids as [|id ids IH]; intros subs j H; cbn [fold_left].
  - destruct H as [[]|H]; exact H.
  - apply IH. destruct H as [[->|Hin]|Hclosed].
    + right. apply closedAt_close. now left.
    + now left.
    + right. apply closedAt_close. now right.
Qed.

Lemma length_closeAll (ids : list nat) :
  forall subs : list Subscriber,
    length (fold_left (fun subs id => close id subs) ids subs) = length subs.
Proof.
  induction ids as [|id ids IH]; intros subs; cbn [fold_left]; auto.
  now rewrite IH, length_close.
Qed.

(** Closing the children of a root that holds every subscription closes
    every subscription. *)
Lemma closeAll_closes (subs : list Subscriber) :
  Forall (fun sub => closed sub = true)
    (fold_left (fun subs id => close id subs) (seq 0 (length subs)) subs).
Proof.
  apply Forall_forall. intros sub Hin.
  apply In_nth_error in Hin. destruct Hin as [j Hj].
  assert (Hlt : (j < length subs)%nat).
  { rewrite <- (length_closeAll (seq 0 (length subs)) subs).
    apply nth_error_Some. congruence. }
  apply (@closedAt_closeAll (seq 0 (length subs)) subs j); [|exact Hj].
  left. apply in_seq. lia.
Qed.

Lemma fires_closed (source : Signal) (subs : list Subscriber) :
  Forall (fun sub => closed sub = true) subs ->
  forall k,
    filter (fun ns => existsb (Signal_eqb source) (sources (snd ns))
                      && negb (closed (snd ns)))
      (mapi (fun sub id => (id, sub)) k subs) = [].
Proof.
  induction 1 as [|sub subs Hsub Hall IH]; intros k; cbn; [reflexivity|].
  rewrite Hsub, andb_false_r. apply IH.
Qed.

Lemma fires_allClosed (source : Signal) (s : Subscriptions) :
  allClosed s -> fires source s = [].
Proof.
  intros H. unfold fires. now rewrite fires_closed.
Qed.

Lemma subscribeAndAdd_invariant (signals : list Signal)
    (s : Subscriptions) :
  subscriptionsInvariant s ->
  subscriptionsInvariant (snd (subscribeAndAdd signals s))
  /\ rootClosed (rootSubscription (snd (subscribeAndAdd signals s)))
     = rootClosed (rootSubscription s).
Proof.
  destruct s as [subs [rc ch]].
  unfold subscriptionsInvariant, allClosed, subscribeAndAdd, bind, subscribe,
    rootSubscription_add.
  cbn. destruct rc; cbn; intros H; split; auto.
  - rewrite close_last. apply Forall_app. split; [exact H|].
    now constructor.
  - rewrite H, length_app, Nat.add_comm. cbn [length Nat.add].
    now rewrite seq_S.
Qed.

Lemma initSubscriptions_steps (s : Subscriptions) :
  snd (initSubscriptions s)
  = snd (subscribeAndAdd visiblePart
      (snd (subscribeAndAdd (visiblePart ++ [loadingStart])
        (snd (subscribeAndAdd [scrollSynchronization]
          (snd (subscribeAndAdd [windowResize] s))))))).
Proof.
  destruct s as [subs [rc ch]].
  unfold initSubscriptions, subscribeAndAdd, bind, subscribe,
    rootSubscription_add.
  cbn. destruct rc; reflexivity.
Qed.

Lemma initSubscriptions_invariant (s : Subscriptions) :
  subscriptionsInvariant s ->
  subscriptionsInvariant (snd (initSubscriptions s))
  /\ rootClosed (rootSubscription (snd (initSubscriptions s)))
     = rootClosed (rootSubscription s).
Proof.
  intros H0. rewrite initSubscriptions_steps.
  destruct (subscribeAndAdd_invariant [windowResize] _ H0) as [H1 E1].
  destruct (subscribeAndAdd_invariant [scrollSynchronization] _ H1)
    as [H2 E2].
  destruct (subscribeAndAdd_invariant (visiblePart ++ [loadingStart]) _ H2)
    as [H3 E3].
  destruct (subscribeAndAdd_invariant visiblePart _ H3) as [H4 E4].
  split; [exact H4|congruence].
Qed.

Lemma componentWillUnmount_closes (s : Subscriptions) :
  subscriptionsInvariant s ->
  rootClosed (rootSubscription (snd (componentWillUnmount s))) = true
  /\ allClosed (snd (componentWillUnmount s)).
Proof.
  destruct s as [subs [rc ch]].
  unfold subscriptionsInvariant, allClosed, componentWillUnmount,
    rootSubscription_unsubscribe.
  cbn. destruct rc; cbn; intros H.
  - now split.
  - split; [reflexivity|]. rewrite H. apply closeAll_closes.
Qed.

Lemma lifecycle_invariant (call : Lifecycle) (s : Subscriptions) :
  subscriptionsInvariant s -> subscriptionsInvariant (snd (lifecycle call s)).
Proof.
  intros H. destruct call; cbn [lifecycle].
  - now apply initSubscriptions_invariant.
  - destruct (componentWillUnmount_closes _ H) as [Hroot Hall].
    unfold subscriptionsInvariant. now rewrite Hroot.
Qed.

Lemma lifecycles_invariant (calls : list Lifecycle) :
  forall s, subscriptionsInvariant s ->
            subscriptionsInvariant (lifecycles calls s).
Proof.
  induction calls as [|call calls IH]; intros s H; cbn; [exact H|].
  apply IH. now apply lifecycle_invariant.
Qed.

(** Once the root is closed it stays closed, whatever is called next. *)
Lemma lifecycles_stay_closed (calls : list Lifecycle) :
  forall s,
    subscriptionsInvariant s ->
    rootClosed (rootSubscription s) = true ->
    rootClosed (rootSubscription (lifecycles calls s)) = true.
Proof.
  induction calls as [|call calls IH]; intros s Hinv Hroot; cbn;
    [exact Hroot|].
  apply IH; [now apply lifecycle_invariant|].
  destruct call; cbn [lifecycle].
  - destruct (initSubscriptions_invariant _ Hinv) as [_ ->]. exact Hroot.
  - now destruct (componentWillUnmount_closes _ Hinv).
Qed.

(** C8: [initSubscriptions] makes four subscriptions (to the window resize,
    to the scroll synchronisation, and two fed by the flow-root resolution
    and the visible part) and adds each to [rootSubscription]; while
    [rootSubscription] is open its children are all the subscriptions the
    instance has made; and after [componentWillUnmount], whatever the
    lifecycle calls before and after it, every subscription is closed and no
    signal runs a callback. *)
Theorem unmount_releases_every_subscription :
  forall (before after : list Lifecycle) (source : Signal),
    let afterMount := snd (initSubscriptions newInstance) in
    let s := lifecycles (before ++ willUnmount :: after) newInstance in
    (map sources (subscriptions afterMount)
     = [[windowResize]; [scrollSynchronization];
        [flowRootResolution; visiblePartUpdate; loadingStart];
        [flowRootResolution; visiblePartUpdate]]
     /\ children (rootSubscription afterMount) = [0; 1; 2; 3]%nat
     /\ fires source afterMount <> [])
    /\ subscriptionsInvariant (lifecycles before newInstance)
    /\ allClosed s
    /\ fires source s = [].
Proof.
  intros before after source afterMount s.
  assert (Hnew : subscriptionsInvariant newInstance) by reflexivity.
  split; [|split].
  - split; [reflexivity|]. split; [reflexivity|].
    destruct source; discriminate.
  - now apply lifecycles_invariant.
  - assert (Hclosed : allClosed s).
    { subst s. unfold lifecycles. rewrite fold_left_app. cbn [fold_left].
      fold (lifecycles before newInstance).
      set (s0 := lifecycles before newInstance).
      assert (H0 : subscriptionsInvariant s0)
        by now apply lifecycles_invariant.
      destruct (componentWillUnmount_closes _ H0) as [Hroot Hall].
      cbn [lifecycle].
      set (s1 := snd (componentWillUnmount s0)) in *.
      fold (lifecycles after s1).
      assert (H1 : subscriptionsInvariant s1).
      { unfold subscriptionsInvariant. now rewrite Hroot. }
      pose proof (lifecycles_invariant after _ H1) as H2.
      pose proof (lifecycles_stay_closed after _ H1 Hroot) as Hroot2.
      unfold subscriptionsInvariant in H2. now rewrite Hroot2 in H2. }
    split; [exact Hclosed|]. now apply fires_allClosed.
Qed.

(** ** EmptyTable *)

Lemma occurs_self (c : ComponentType) : occurs c (component c) = true.
Proof. destruct c; cbn; [reflexivity|apply String.eqb_refl|reflexivity]. Qed.

(** C10: [EmptyTable] paints one cell, whose [colSpan] is the [colSpan]
    given and whose height is [emptyCellHeight] when given and 200
    otherwise; the cell holds [EmptyContent] (inside the empty wrapper) when
    [isLoading] is false and nothing when it is true. *)
Theorem EmptyTable_cell :
  forall props : EmptyTableProps,
    let content := nullish (EmptyContent props) DefaultEmptyContent in
    exists td : ReactNode,
      cellOf (EmptyTable props) = Some td
      /\ tagOf td = Some "td"%string
      /\ attrColSpan (attributesOf td) = Some (propColSpan props)
      /\ styleHeight (attributesOf td)
         = Some (match emptyCellHeight props with
                 | Some height => height
                 | None => 200
                 end)
      /\ occurs content td = negb (isLoading props)
      /\ painted (childrenOf td)
         = if isLoading props then []
           else [element "div"
                   (mkAttributes (Some Classes.emptyWrapper) None None None)
                   [component content]].
Proof.
  intros props content. eexists. split; [reflexivity|].
  split; [reflexivity|]. split; [reflexivity|]. split; [reflexivity|].
  cbn [childrenOf occurs existsb].
  destruct (isLoading props); cbn [negb painted filter]; [now split|].
  fold content. split; [|reflexivity].
  change (existsb (occurs content) [component content] || false = true).
  cbn [existsb]. now rewrite occurs_self.
Qed.

(** * Further properties *)

(** ** The column window and the viewport *)

Section WindowCoverage.

Variable any : Type.
Variable OVERSCAN_SIZE : Z.

Implicit Types (state : BaseTableState any).

(** X1: with horizontal virtualisation on, the left blank never reaches
    past the overscanned offset: [leftBlank <= max(0, offsetX -
    OVERSCAN_SIZE)], so no column that starts at or after that offset is
    left out on the left. *)
Theorem leftBlank_before_overscanned_offset state :
  horizontal (useVirtual state) = true ->
  leftBlank (getHorizontalRenderRange OVERSCAN_SIZE state)
  <= Z.max 0 (offsetX state - OVERSCAN_SIZE).
Proof.
  intros Hvirtual.
  destruct (getHorizontalRenderRange_virtual OVERSCAN_SIZE state Hvirtual)
    as ((_ & Hbelow & _) & Hlb & _).
  rewrite Hlb.
  destruct (leftIndex (getHorizontalRenderRange OVERSCAN_SIZE state))
    as [|j] eqn:Hli.
  - rewrite slice_empty. change (sum []) with 0. lia.
  - specialize (Hbelow j). lia.
Qed.

(** X2: with horizontal virtualisation on, integer widths, offset,
    viewport width and overscan within the magnitude in which binary64
    arithmetic is exact, and no center column wider than [OVERSCAN_SIZE],
    the rendered columns reach the right edge of the viewport,
    [offsetX + maxRenderWidth], unless every column up to the last is
    rendered. *)
Theorem viewport_right_edge_rendered state :
  exactInBinary64 OVERSCAN_SIZE state ->
  horizontal (useVirtual state) = true ->
  Forall (fun col => width col <= OVERSCAN_SIZE) (Flat.center (flat state)) ->
  let center := Flat.center (flat state) in
  let r := getHorizontalRenderRange OVERSCAN_SIZE state in
  rightIndex r = length center
  \/ offsetX state + maxRenderWidth state
     <= leftBlank r
        + sum (map (@width any) (slice center (leftIndex r) (rightIndex r))).
Proof.
  intros _ Hvirtual Hnarrow center r.
  destruct (getHorizontalRenderRange_virtual OVERSCAN_SIZE state Hvirtual)
    as (_ & _ & ([Hle Hlen] & _ & Hstop) & _).
  fold center r in Hle, Hlen, Hstop.
  rewrite length_map in Hlen, Hstop.
  destruct (Nat.eq_dec (rightIndex r) (length center)) as [Heq|Hne];
    [now left|right].
  assert (Hlt : (rightIndex r < length center)%nat) by lia.
  specialize (Hstop Hlt).
  destruct (nth_error center (rightIndex r)) as [col|] eqn:Hcol;
    [|apply nth_error_None in Hcol; lia].
  assert (Hw : width col <= OVERSCAN_SIZE).
  { rewrite Forall_forall in Hnarrow. apply Hnarrow.
    eapply nth_error_In; eassumption. }
  replace (rightIndex r) with (leftIndex r + (rightIndex r - leftIndex r))%nat
    in Hstop at 1 by lia.
  rewrite (slice_snoc (map (@width any) center) (leftIndex r)
             (rightIndex r - leftIndex r) (x := width col)) in Hstop.
  - rewrite sum_app, sum_cons in Hstop. change (sum []) with 0 in Hstop.
    replace (leftIndex r + (rightIndex r - leftIndex r))%nat
      with (rightIndex r) in Hstop by lia.
    unfold slice in *. rewrite <- firstn_map, <- skipn_map. lia.
  - replace (leftIndex r + (rightIndex r - leftIndex r))%nat
      with (rightIndex r) by lia.
    now apply nth_error_width.
Qed.

(** X3: scrolling to the right never moves the window to the left: for two
    states with the same center columns, both virtualised, a larger
    [offsetX] gives a [leftIndex] at least as large. *)
Theorem leftIndex_monotone state1 state2 :
  horizontal (useVirtual state1) = true ->
  horizontal (useVirtual state2) = true ->
  Flat.center (flat state1) = Flat.center (flat state2) ->
  offsetX state1 <= offsetX state2 ->
  (leftIndex (getHorizontalRenderRange OVERSCAN_SIZE state1)
   <= leftIndex (getHorizontalRenderRange OVERSCAN_SIZE state2))%nat.
Proof.
  intros H1 H2 Hcenter Hoffset.
  destruct (getHorizontalRenderRange_virtual OVERSCAN_SIZE state1 H1)
    as (([_ Hlen1] & Hbelow1 & _) & _).
  destruct (getHorizontalRenderRange_virtual OVERSCAN_SIZE state2 H2)
    as ((_ & _ & Hstop2) & _).
  rewrite Hcenter in *.
  set (a := leftIndex (getHorizontalRenderRange OVERSCAN_SIZE state1)) in *.
  set (b := leftIndex (getHorizontalRenderRange OVERSCAN_SIZE state2)) in *.
  destruct (Nat.le_gt_cases a b) as [Hab|Hba]; [exact Hab|].
  exfalso.
  assert (Hb : (0 <= b < a)%nat) by lia.
  specialize (Hbelow1 b Hb).
  assert (Hblen : (b < length (map (@width any)
                                 (Flat.center (flat state2))))%nat) by lia.
  specialize (Hstop2 Hblen). lia.
Qed.

End WindowCoverage.

Lemma leftBlank_before_overscanned_offset_witness :
  horizontal (useVirtual manyColumns) = true
  /\ leftBlank (getHorizontalRenderRange 50 manyColumns) <= 70.
Proof.
  split; [reflexivity|].
  exact (leftBlank_before_overscanned_offset 50 manyColumns eq_refl).
Defined.

Lemma narrowColumns : forall n : nat,
  Forall (fun col : ArtColumn unit => width col <= 50) (repeat col50 n).
Proof.
  induction n as [|n IH]; cbn [repeat]; constructor; [cbn; lia | exact IH].
Defined.

Lemma manyColumns_exact : exactInBinary64 50 manyColumns.
Proof. vm_compute. discriminate. Defined.

Lemma viewport_right_edge_rendered_witness :
  exactInBinary64 50 manyColumns
  /\ horizontal (useVirtual manyColumns) = true
  /\ Forall (fun col => width col <= 50) (Flat.center (flat manyColumns))
  /\ (rightIndex (getHorizontalRenderRange 50 manyColumns) = 20%nat
      \/ 120 + 100 <= 50 + sum [50; 50; 50; 50]).
Proof.
  split; [exact manyColumns_exact|].
  split; [reflexivity|]. split; [exact (narrowColumns 20)|].
  exact (@viewport_right_edge_rendered unit 50 manyColumns manyColumns_exact
           eq_refl (narrowColumns 20)).
Defined.

Lemma leftIndex_monotone_witness :
  offsetX manyColumns <= offsetX manyColumnsFurther
  /\ (leftIndex (getHorizontalRenderRange 50 manyColumns)
      <= leftIndex (getHorizontalRenderRange 50 manyColumnsFurther))%nat.
Proof.
  split; [cbn; lia|].
  apply (leftIndex_monotone 50 manyColumns manyColumnsFurther);
    [reflexivity | reflexivity | reflexivity | cbn; lia].
Defined.

(** Without the bound on the widths the right edge can be missed: four
    400-pixel columns under an overscan of 100, scrolled to 60 in an
    800-pixel viewport, are rendered up to 800 while the viewport ends
    at 860. *)
Lemma wide_columns_miss_right_edge :
  let r := getHorizontalRenderRange 100 wideColumns in
  leftIndex r = 0%nat /\ rightIndex r = 2%nat /\ rightBlank r = 800
  /\ leftBlank r
     + sum (map (@width unit)
              (slice (Flat.center (flat wideColumns))
                 (leftIndex r) (rightIndex r)))
     < offsetX wideColumns + maxRenderWidth wideColumns.
Proof. repeat split. Qed.

(** ** The wrapped columns and the colgroup *)

Lemma In_mapi {A B : Type} (f : A -> nat -> B) (l : list A) (y : B) :
  forall k,
    In y (mapi f k l)
    <-> exists i a, nth_error l i = Some a /\ y = f a (k + i)%nat.
Proof.
  induction l as [|x l IH]; intros k; cbn [mapi In].
  - split; [contradiction|]. intros (i & a & H & _). now destruct i.
  - rewrite IH. split.
    + intros [<-|(i & a & Hi & ->)].
      * exists 0%nat, x. split; [reflexivity|]. now rewrite Nat.add_0_r.
      * exists (S i), a. split; [exact Hi|]. f_equal. lia.
    + intros (i & a & Hi & ->). destruct i as [|i]; cbn in Hi.
      * left. inversion Hi; subst. now rewrite Nat.add_0_r.
      * right. exists i, a. split; [exact Hi|]. f_equal. lia.
Qed.

Lemma nth_error_slice {A : Type} (l : list A) (start end_ i : nat) (x : A) :
  nth_error (slice l start end_) i = Some x ->
  nth_error l (start + i) = Some x /\ (start + i < end_)%nat.
Proof.
  unfold slice. rewrite nth_error_firstn.
  destruct (Nat.ltb_spec i (end_ - start)) as [Hlt|Hge]; [|discriminate].
  rewrite nth_error_skipn. intros H. split; [exact H|lia].
Qed.

Lemma colgroupWidths_mapi {any : Type} (f : nat -> Z)
    (cols : list (ArtColumn any)) :
  forall k,
    colgroupWidths (mapi (fun col i => normal col (f i)) k cols)
    = map (@width any) cols.
Proof.
  induction cols as [|col cols IH]; intros k; cbn; [reflexivity|].
  f_equal. apply IH.
Qed.

Lemma sum_nonneg (l : list Z) : Forall (fun x => 0 <= x) l -> 0 <= sum l.
Proof.
  induction 1 as [|x l Hx Hl IH].
  - change (sum []) with 0. lia.
  - rewrite sum_cons. lia.
Qed.

Lemma Forall_firstn_skipn {A : Type} (P : A -> Prop) (l : list A) (n : nat) :
  Forall P l -> Forall P (firstn n l) /\ Forall P (skipn n l).
Proof.
  intros H. rewrite <- (firstn_skipn n l) in H.
  now apply Forall_app in H.
Qed.

(** X4: every column to paint carries its index in [flat.full]: when [flat]
    is well formed, a wrapped column [(col, colIndex)] is the column of
    [flat.full] at position [colIndex], whatever the horizontal range. *)
Theorem wrapped_column_index_in_full :
  forall (any : Type) (state : BaseTableState any)
         (hoz : HorizontalRenderRange) (col : ArtColumn any) (colIndex : Z),
    flatWellFormed (flat state) ->
    In (normal col colIndex) (getFlatHozWrappedCols state hoz) ->
    exists k : nat,
      colIndex = Z.of_nat k
      /\ nth_error (Flat.full (flat state)) k = Some col.
Proof.
  intros any state hoz col z Hwf Hin.
  unfold getFlatHozWrappedCols in Hin.
  assert (Hfull : length (Flat.full (flat state))
                  = (length (Flat.left (flat state))
                     + length (Flat.center (flat state))
                     + length (Flat.right (flat state)))%nat).
  { rewrite Hwf, !length_app. lia. }
  assert (Hblank : forall (b : bool) side w,
             ~ In (normal col z) (if b then [blank side w] else [])).
  { intros [] side w H; cbn in H; [|exact H].
    destruct H as [H|[]]. discriminate H. }
  rewrite !in_app_iff in Hin.
  destruct Hin as [Hin|[Hin|[Hin|[Hin|Hin]]]];
    try (exfalso; eapply Hblank; eassumption);
    apply In_mapi in Hin; destruct Hin as (i & a & Hi & Heq);
    inversion Heq; subst; clear Heq.
  - exists i. split; [reflexivity|].
    rewrite Hwf, nth_error_app1; [exact Hi|].
    apply nth_error_Some. congruence.
  - apply nth_error_slice in Hi. destruct Hi as [Hi _].
    exists (length (Flat.left (flat state)) + (leftIndex hoz + i))%nat.
    split; [lia|].
    rewrite Hwf, nth_error_app2 by lia.
    replace (length (Flat.left (flat state)) + (leftIndex hoz + i)
             - length (Flat.left (flat state)))%nat
      with (leftIndex hoz + i)%nat by lia.
    rewrite nth_error_app1; [exact Hi|].
    apply nth_error_Some. congruence.
  - assert (Hlt : (i < length (Flat.right (flat state)))%nat)
      by (apply nth_error_Some; congruence).
    exists (length (Flat.left (flat state))
            + length (Flat.center (flat state)) + i)%nat.
    split; [lia|].
    rewrite Hwf, nth_error_app2 by lia.
    rewrite nth_error_app2 by lia.
    rewrite <- Hi. f_equal. lia.
Qed.

Lemma wrapped_column_index_in_full_witness :
  flatWellFormed (flat lockedBothSides)
  /\ In (normal col50 4)
       (getFlatHozWrappedCols lockedBothSides
          (getHorizontalRenderRange 20 lockedBothSides))
  /\ exists k : nat,
       4 = Z.of_nat k
       /\ nth_error (Flat.full (flat lockedBothSides)) k = Some col50.
Proof.
  assert (Hin : In (normal col50 4)
                  (getFlatHozWrappedCols lockedBothSides
                     (getHorizontalRenderRange 20 lockedBothSides))).
  { vm_compute. do 4 right. left. reflexivity. }
  split; [reflexivity|]. split; [exact Hin|].
  exact (@wrapped_column_index_in_full unit lockedBothSides
           (getHorizontalRenderRange 20 lockedBothSides) col50 4
           eq_refl Hin).
Defined.

(** X5: which columns are painted: when [flat] is well formed, the column
    indices of the wrapped columns are those of every left-locked column,
    of the center columns from [leftIndex] up to [rightIndex] (and the last
    center column), and of every right-locked column; the locked columns
    are painted whatever the horizontal range. *)
Theorem painted_column_indices :
  forall (any : Type) (state : BaseTableState any)
         (hoz : HorizontalRenderRange) (colIndex : Z),
    flatWellFormed (flat state) ->
    let leftCount := length (Flat.left (flat state)) in
    let centerCount := length (Flat.center (flat state)) in
    let fullCount := length (Flat.full (flat state)) in
    In colIndex (colIndexes (getFlatHozWrappedCols state hoz))
    <-> exists k : nat,
          colIndex = Z.of_nat k
          /\ ((k < leftCount)%nat
              \/ (leftCount + leftIndex hoz <= k < leftCount + rightIndex hoz
                  /\ k < leftCount + centerCount)%nat
              \/ (leftCount + centerCount <= k < fullCount)%nat).
Proof.
  intros any state hoz z Hwf L C F.
  assert (Hfull : F = (L + C + length (Flat.right (flat state)))%nat).
  { subst F L C. rewrite Hwf, !length_app. lia. }
  assert (Hslice : length (slice (Flat.center (flat state))
                             (leftIndex hoz) (rightIndex hoz))
                   = Nat.min (rightIndex hoz - leftIndex hoz)
                       (C - leftIndex hoz)).
  { unfold slice. now rewrite length_firstn, length_skipn. }
  unfold getFlatHozWrappedCols.
  rewrite !colIndexes_app, !colIndexes_mapi.
  assert (Hblank : forall (b : bool) side w,
             colIndexes (any := any) (if b then [blank side w] else []) = []).
  { intros [] side w; reflexivity. }
  rewrite !Hblank. cbn [app].
  rewrite !in_app_iff, !in_map_iff. fold L C F. rewrite Hslice.
  split.
  - intros [(i & <- & Hi)|[(i & <- & Hi)|(i & <- & Hi)]];
      apply in_seq in Hi.
    + exists i. split; [reflexivity|]. left. lia.
    + exists (L + leftIndex hoz + i)%nat. split; [lia|]. right. left. lia.
    + exists (L + C + i)%nat. split; [lia|]. right. right. lia.
  - intros (k & -> & [Hk|[Hk|Hk]]).
    + left. exists k. split; [reflexivity|]. apply in_seq. lia.
    + right. left. exists (k - L - leftIndex hoz)%nat.
      split; [lia|]. apply in_seq. lia.
    + right. right. exists (k - L - C)%nat.
      split; [lia|]. apply in_seq. lia.
Qed.

Lemma painted_column_indices_witness :
  flatWellFormed (flat lockedBothSides)
  /\ (In 4 (colIndexes
              (getFlatHozWrappedCols lockedBothSides
                 (getHorizontalRenderRange 20 lockedBothSides)))
      <-> exists k : nat,
            4 = Z.of_nat k
            /\ ((k < 1)%nat
                \/ (1 + 1 <= k < 1 + 3 /\ k < 1 + 3)%nat
                \/ (1 + 3 <= k < 5)%nat)).
Proof.
  split; [reflexivity|].
  exact (@painted_column_indices unit lockedBothSides
           (getHorizontalRenderRange 20 lockedBothSides) 4 eq_refl).
Defined.

Lemma sum_blank {any : Type} (side : BlankSide) (w : Z) :
  0 <= w ->
  sum (colgroupWidths (any := any)
         (if 0 <? w then [blank side w] else [])) = w.
Proof.
  intros Hw. destruct (Z.ltb_spec 0 w) as [Hpos|Hzero]; cbn.
  - rewrite sum_cons. change (sum []) with 0. lia.
  - change (sum []) with 0. lia.
Qed.

Lemma colgroupWidths_app {any : Type} (a b : list (HozWrappedCol any)) :
  colgroupWidths (a ++ b) = colgroupWidths a ++ colgroupWidths b.
Proof. unfold colgroupWidths. apply map_app. Qed.

(** X6: the colgroup keeps the width of the table: when the widths, the
    offset, the viewport width and the overscan are integers within the
    magnitude in which binary64 arithmetic is exact, [flat] is well formed
    and no center column has a negative width, the widths of the [col]
    elements built from the wrapped columns of the current horizontal range
    (blanks included) add up to the width of all leaf columns, with
    horizontal virtualisation on or off. *)
Theorem colgroup_width_conserved :
  forall (any : Type) (OVERSCAN_SIZE : Z) (state : BaseTableState any),
    exactInBinary64 OVERSCAN_SIZE state ->
    flatWellFormed (flat state) ->
    Forall (fun col => 0 <= width col) (Flat.center (flat state)) ->
    sum (colgroupWidths
           (getFlatHozWrappedCols state
              (getHorizontalRenderRange OVERSCAN_SIZE state)))
    = sum (map (@width any) (Flat.full (flat state))).
Proof.
  intros any O state _ Hwf Hnonneg.
  set (center := Flat.center (flat state)) in *.
  assert (Hws : Forall (fun x => 0 <= x) (map (@width any) center)).
  { apply Forall_map. exact Hnonneg. }
  unfold getFlatHozWrappedCols.
  rewrite !colgroupWidths_app, !colgroupWidths_mapi, !sum_app.
  rewrite Hwf, !map_app, !sum_app. fold center.
  destruct (horizontal (useVirtual state)) eqn:Hvirtual.
  - destruct (getHorizontalRenderRange_virtual O state Hvirtual)
      as (_ & Hlb & ([Hle _] & _) & Hrb).
    fold center in Hlb, Hrb.
    set (r := getHorizontalRenderRange O state) in *.
    assert (Hlb0 : 0 <= leftBlank r).
    { rewrite Hlb. apply sum_nonneg. unfold slice.
      now apply Forall_firstn_skipn, Forall_firstn_skipn. }
    assert (Hrb0 : 0 <= rightBlank r).
    { rewrite Hrb. apply sum_nonneg. unfold sliceFrom.
      now apply Forall_firstn_skipn. }
    rewrite !sum_blank by assumption.
    assert (Hsplit : sum (map (@width any) center)
                     = leftBlank r
                       + sum (map (@width any)
                                (slice center (leftIndex r) (rightIndex r)))
                       + rightBlank r).
    { rewrite (slice_split (map (@width any) center) Hle) at 1.
      rewrite !sum_app, Hlb, Hrb.
      unfold slice, sliceFrom. rewrite Nat.sub_0_r. cbn [skipn].
      rewrite <- firstn_map, <- skipn_map. lia. }
    lia.
  - unfold getHorizontalRenderRange. rewrite Hvirtual.
    cbn [negb leftIndex leftBlank rightIndex rightBlank].
    rewrite !sum_blank by lia.
    unfold slice. rewrite Nat.sub_0_r. cbn [skipn].
    rewrite firstn_all2.
    + fold center. lia.
    + rewrite Hwf, !length_app. fold center. lia.
Qed.

Lemma lockedBothSides_exact : exactInBinary64 20 lockedBothSides.
Proof. vm_compute. discriminate. Defined.

Lemma colgroup_width_conserved_witness :
  exactInBinary64 20 lockedBothSides
  /\ flatWellFormed (flat lockedBothSides)
  /\ Forall (fun col => 0 <= width col) (Flat.center (flat lockedBothSides))
  /\ sum [50; 50; 50; 50; 50] = 250.
Proof.
  assert (Hnonneg : Forall (fun col : ArtColumn unit => 0 <= width col)
                      (Flat.center (flat lockedBothSides))).
  { repeat constructor; cbn; lia. }
  split; [exact lockedBothSides_exact|].
  split; [reflexivity|]. split; [exact Hnonneg|].
  exact (@colgroup_width_conserved unit 20 lockedBothSides
           lockedBothSides_exact eq_refl Hnonneg).
Defined.

(** ** The state never lags the geometry by half the overscan *)

Section Lag.

Variable any : Type.
Variable OVERSCAN_SIZE : Z.
Hypothesis overscan_positive : 0 < OVERSCAN_SIZE.

Implicit Types (state : BaseTableState any).

Lemma afterUpdateOffsetX_useVirtual state (x : Z) :
  useVirtual (afterUpdateOffsetX OVERSCAN_SIZE state x) = useVirtual state.
Proof.
  unfold afterUpdateOffsetX, updateOffsetX.
  destruct (horizontal (useVirtual state)); [|reflexivity].
  destruct (OVERSCAN_SIZE <=? _); reflexivity.
Qed.

Lemma scrolls_useVirtual (xs : list Z) :
  forall state,
    useVirtual (fold_left (afterUpdateOffsetX OVERSCAN_SIZE) xs state)
    = useVirtual state.
Proof.
  induction xs as [|x xs IH]; intros state; cbn [fold_left]; [reflexivity|].
  now rewrite IH, afterUpdateOffsetX_useVirtual.
Qed.

(** X7: with horizontal virtualisation on and a positive overscan, after
    any sequence of calls of [updateOffsetX] the offset kept in the state
    is less than half the overscan away from the offset of the last call. *)
Theorem offsetX_never_lags state (xs : list Z) (x : Z) :
  horizontal (useVirtual state) = true ->
  2 * Z.abs (x - offsetX (fold_left (afterUpdateOffsetX OVERSCAN_SIZE)
                            (xs ++ [x]) state))
  < OVERSCAN_SIZE.
Proof.
  intros Hvirtual. rewrite fold_left_app. cbn [fold_left].
  set (before := fold_left (afterUpdateOffsetX OVERSCAN_SIZE) xs state).
  assert (Hbefore : horizontal (useVirtual before) = true).
  { subst before. now rewrite scrolls_useVirtual. }
  unfold afterUpdateOffsetX, updateOffsetX. rewrite Hbefore.
  destruct (Z.leb_spec OVERSCAN_SIZE (2 * Z.abs (x - offsetX before)))
    as [Hfar|Hnear].
  - cbn [setOffsetX offsetX]. rewrite Z.sub_diag. cbn. lia.
  - exact Hnear.
Qed.

Implicit Types (c : Coordinator any).

Lemma onVisiblePart_remembersState c (part : VisiblePart) :
  remembersState c ->
  remembersState (fst (onVisiblePart OVERSCAN_SIZE c part)).
Proof.
  unfold remembersState, onVisiblePart, distinctUntilChanged.
  destruct (horizontal _ || vertical _); [|auto].
  destruct (remembered c) as [last|].
  - destruct (sizeAndOffsetUnchanged _ last _); cbn; auto.
  - cbn. auto.
Qed.

Lemma onVisibleParts_remembersState (parts : list VisiblePart) :
  forall c,
    remembersState c ->
    remembersState (fst (onVisibleParts OVERSCAN_SIZE c parts)).
Proof.
  induction parts as [|part rest IH]; intros c Hc; [exact Hc|].
  cbn [onVisibleParts].
  pose proof (onVisiblePart_remembersState c part Hc) as H1.
  destruct (onVisiblePart OVERSCAN_SIZE c part) as [c1 update].
  specialize (IH c1 H1).
  destruct (onVisibleParts OVERSCAN_SIZE c1 rest) as [c2 updates].
  exact IH.
Qed.

Lemma onVisibleParts_snoc (parts : list VisiblePart) (part : VisiblePart) :
  forall c,
    fst (onVisibleParts OVERSCAN_SIZE c (parts ++ [part]))
    = fst (onVisiblePart OVERSCAN_SIZE
             (fst (onVisibleParts OVERSCAN_SIZE c parts)) part).
Proof.
  induction parts as [|p rest IH]; intros c; cbn [app onVisibleParts fst].
  - destruct (onVisiblePart OVERSCAN_SIZE c part) as [c1 update].
    reflexivity.
  - destruct (onVisiblePart OVERSCAN_SIZE c p) as [c1 update].
    specialize (IH c1).
    destruct (onVisibleParts OVERSCAN_SIZE c1 (rest ++ [part])).
    destruct (onVisibleParts OVERSCAN_SIZE c1 rest).
    cbn [fst] in *. exact IH.
Qed.

(** X8: with a virtualised axis and a positive overscan, after any sequence
    of viewport events since mounting, [maxRenderWidth], [maxRenderHeight]
    and [offsetY] of the state are each less than half the overscan away
    from those of the last event. *)
Theorem viewport_state_never_lags state (parts : list VisiblePart)
    (part : VisiblePart) :
  horizontal (useVirtual state) || vertical (useVirtual state) = true ->
  let c :=
    fst (onVisibleParts OVERSCAN_SIZE (mounted state) (parts ++ [part])) in
  sizeAndOffsetUnchanged OVERSCAN_SIZE (geometryOf (tableState c))
    (toSizeAndOffset part) = true.
Proof.
  intros Hvirtual c. subst c. rewrite onVisibleParts_snoc.
  destruct (onVisibleParts_remembered OVERSCAN_SIZE parts (mounted state))
    as [_ Hsame].
  pose proof (onVisibleParts_remembersState parts (mounted state) I) as Hinv.
  set (before := fst (onVisibleParts OVERSCAN_SIZE (mounted state) parts))
    in *.
  cbn [mounted tableState] in Hsame.
  assert (Hself : forall v, sizeAndOffsetUnchanged OVERSCAN_SIZE v v = true).
  { intros v. apply sizeAndOffsetUnchanged_iff.
    rewrite !Z.sub_diag. cbn. lia. }
  unfold remembersState in Hinv.
  unfold onVisiblePart, distinctUntilChanged.
  rewrite Hsame, Hvirtual.
  destruct (remembered before) as [last|].
  - destruct (sizeAndOffsetUnchanged OVERSCAN_SIZE last
                (toSizeAndOffset part)) eqn:Hclose; cbn [fst tableState].
    + now rewrite <- Hinv.
    + destruct (toSizeAndOffset part) as [h w y] eqn:Hv.
      unfold geometryOf, setSizeAndOffset. cbn. apply Hself.
  - cbn [fst tableState].
    destruct (toSizeAndOffset part) as [h w y] eqn:Hv.
    unfold geometryOf, setSizeAndOffset. cbn. apply Hself.
Qed.

End Lag.

Lemma offsetX_never_lags_witness :
  0 < 100
  /\ horizontal (useVirtual fiveColumns) = true
  /\ 2 * Z.abs (190 - 190) < 100.
Proof.
  split; [lia|]. split; [reflexivity|].
  exact (@offsetX_never_lags unit 100 eq_refl fiveColumns [150; 160] 190
           eq_refl).
Defined.

Lemma viewport_state_never_lags_witness :
  0 < 100
  /\ horizontal (useVirtual fiveColumns) || vertical (useVirtual fiveColumns)
     = true
  /\ sizeAndOffsetUnchanged 100 (SizeAndOffset.mk 600 800 80)
       (toSizeAndOffset (viewportAt 120)) = true.
Proof.
  split; [lia|]. split; [reflexivity|].
  exact (@viewport_state_never_lags unit 100 eq_refl fiveColumns
           [viewportAt 0; viewportAt 40; viewportAt 80] (viewportAt 120)
           eq_refl).
Defined.

(** ** The lifecycle settles *)

Section LifecycleTheorems.

Variable any : Type.
Variable OVERSCAN_SIZE : Z.

Implicit Types (state : BaseTableState any) (dom : Layout)
  (nested : Flat.t (ArtColumn any)).

(** X9: once [updateStickyScroll] has run and its [setState] is applied,
    the sticky scroll is hidden whenever the table is at least as wide as
    its content, and running [updateStickyScroll] again on the same
    measurements sets no state. *)
Theorem updateStickyScroll_settles state dom :
  let state' :=
    match hasScrollSet (updateStickyScroll state (Some dom)) with
    | Some b => setHasScroll state b
    | None => state
    end in
  hasScrollSet (updateStickyScroll state' (Some dom)) = None
  /\ (if innerTableWidth dom <=? artTableWidth dom
      then hasScroll state' = false
      else hasScroll state = true -> hasScroll state' = true).
Proof.
  unfold updateStickyScroll. cbn [hasScrollSet].
  destruct (innerTableWidth dom <=? artTableWidth dom);
    destruct (hasScroll state) eqn:Hscroll; cbn [negb andb];
    try destruct (5 <? scrollbarHeight dom) eqn:Hbar;
    cbn [setHasScroll hasScroll negb andb]; rewrite ?Hscroll, ?Hbar;
    cbn [negb andb]; auto.
Qed.

(** The flag that [adjustNeedRenderLock] leaves in the state. *)
Lemma adjustNeedRenderLock_result state nested dom :
  nullish (adjustNeedRenderLock state nested dom) (needRenderLock state)
  = isLock nested
    && (artTableClientWidth dom
        <? sum (map (@width any) (Flat.full (flat state)))).
Proof.
  unfold adjustNeedRenderLock.
  destruct (isLock nested); cbn [andb].
  - destruct (needRenderLock state);
      destruct (artTableClientWidth dom <? _); reflexivity.
  - destruct (needRenderLock state); reflexivity.
Qed.

(** X10: after [didMountOrUpdate] the lock shadows follow the widths: at a
    scroll position [x] the left shadow is shown exactly when there are
    left-locked columns, the table is locked, the columns are wider in
    total than the table, and [x > 0]; the right one likewise with
    [x < scrollWidth - clientWidth].  In particular no shadow is shown when
    all columns fit. *)
Theorem lock_shadows_after_lifecycle state nested dom (x : Z) :
  let state' :=
    applyPatch state (didMountOrUpdate OVERSCAN_SIZE state nested dom) in
  let overflows :=
    artTableClientWidth dom
    <? sum (map (@width any) (Flat.full (flat state))) in
  snd (syncHorizontalScroll OVERSCAN_SIZE state' dom x)
  = mkLockShadows
      ((0 <? length (Flat.left (flat state)))%nat
       && (isLock nested && overflows) && (0 <? x))
      ((0 <? length (Flat.right (flat state)))%nat
       && (isLock nested && overflows)
       && (x <? bodyScrollWidth dom - bodyClientWidth dom)).
Proof.
  cbv zeta. unfold syncHorizontalScroll. cbn [snd].
  cbn [applyPatch didMountOrUpdate flat needRenderLock patchNeedRenderLock].
  now rewrite adjustNeedRenderLock_result.
Qed.

(** X11: [didMountOrUpdate] settles: when the horizontal axis is not
    virtualised or the overscan is positive, once the [setState] calls of
    one run are applied, a second run on the same measurements makes none,
    so the table is not rendered again on their account. *)
Theorem didMountOrUpdate_settles state nested dom :
  horizontal (useVirtual state) = false \/ 0 < OVERSCAN_SIZE ->
  didMountOrUpdate OVERSCAN_SIZE
    (applyPatch state (didMountOrUpdate OVERSCAN_SIZE state nested dom))
    nested dom
  = mkStatePatch None None None.
Proof.
  intros Hoverscan.
  set (patch := didMountOrUpdate OVERSCAN_SIZE state nested dom).
  unfold didMountOrUpdate. f_equal.
  - unfold syncHorizontalScrollFromTableBody, syncHorizontalScroll.
    cbn [fst]. unfold updateOffsetX.
    cbn [applyPatch useVirtual offsetX].
    destruct (horizontal (useVirtual state)) eqn:Hvirtual; [|reflexivity].
    destruct Hoverscan as [Hoff|Hpos]; [discriminate|].
    subst patch. unfold didMountOrUpdate at 1.
    cbn [patchOffsetX]. unfold syncHorizontalScrollFromTableBody,
      syncHorizontalScroll, updateOffsetX. cbn [fst]. rewrite Hvirtual.
    destruct (Z.leb_spec OVERSCAN_SIZE
                (2 * Z.abs (bodyScrollLeft dom - offsetX state)))
      as [Hfar|Hnear]; cbn [option_map nullish setOffsetX offsetX].
    + rewrite Z.sub_diag.
      destruct (Z.leb_spec OVERSCAN_SIZE (2 * Z.abs 0)) as [H0|H0];
        [cbn in H0; lia | reflexivity].
    + destruct (Z.leb_spec OVERSCAN_SIZE
                  (2 * Z.abs (bodyScrollLeft dom - offsetX state)));
        [lia | reflexivity].
  - pose proof (updateStickyScroll_settles state dom) as [Hsettled _].
    unfold updateStickyScroll in *. cbn [hasScrollSet] in *.
    cbn [applyPatch hasScroll]. subst patch.
    cbn [didMountOrUpdate patchHasScroll updateStickyScroll hasScrollSet].
    destruct (innerTableWidth dom <=? artTableWidth dom);
      destruct (hasScroll state);
      try destruct (5 <? scrollbarHeight dom) eqn:Hbar;
      cbn [negb andb nullish]; rewrite ?Hbar; reflexivity.
  - subst patch. unfold adjustNeedRenderLock at 1.
    cbn [applyPatch needRenderLock flat didMountOrUpdate
         patchNeedRenderLock].
    rewrite adjustNeedRenderLock_result.
    destruct (isLock nested); cbn [andb]; [|reflexivity].
    now rewrite Bool.eqb_reflx.
Qed.

End LifecycleTheorems.

Lemma didMountOrUpdate_settles_witness :
  (horizontal (useVirtual fiveColumns) = false \/ 0 < 100)
  /\ didMountOrUpdate 100 fiveColumns (flat fiveColumns) narrowLayout
     = mkStatePatch None None (Some false)
  /\ didMountOrUpdate 100
       (applyPatch fiveColumns
          (didMountOrUpdate 100 fiveColumns (flat fiveColumns) narrowLayout))
       (flat fiveColumns) narrowLayout
     = mkStatePatch None None None.
Proof.
  split; [right; reflexivity|]. split; [reflexivity|].
  exact (@didMountOrUpdate_settles unit 100 fiveColumns (flat fiveColumns)
           narrowLayout (or_intror eq_refl)).
Defined.

(** ** The shape of a render pass *)

Section PassShape.

Variable any : Type.
Context {SM : Type} {ops : SpanManagerOps SM}.
Variable state : BaseTableState any.
Variable renderRange : FullRenderRange.

Lemma mapM_length {S A B : Type} (f : A -> State S B) (l : list A) :
  forall (s : S) (bs : list B) (s' : S),
    mapM f l s = (bs, s') -> length bs = length l.
Proof.
  induction l as [|a l IH]; intros s bs s' Hrun.
  - now inversion Hrun.
  - rewrite mapM_cons in Hrun.
    destruct (f a s) as [b s1]. destruct (mapM f l s1) as [bs' s2] eqn:Hrest.
    inversion Hrun; subst. cbn [length]. f_equal. eapply IH. eassumption.
Qed.

Lemma mapi_length {A B : Type} (f : A -> nat -> B) (l : list A) :
  forall k, length (mapi f k l) = length l.
Proof.
  induction l as [|a l IH]; intros k; cbn; [reflexivity|]. now rewrite IH.
Qed.

Lemma renderRow_length (wrappedCols : list (HozWrappedCol any))
    (record : any) (i : nat) (s : PassState) :
  length (fst (renderRow state renderRange wrappedCols record i s))
  = length wrappedCols.
Proof.
  unfold renderRow, bind at 1, spanManager_stripUpwards. cbv zeta.
  match goal with
  | |- context [mapM ?f wrappedCols ?s0] =>
      destruct (mapM f wrappedCols s0) as [children s1] eqn:Hrow
  end.
  cbn [fst]. eapply mapM_length. eassumption.
Qed.

Lemma rows_lengths (wrappedCols : list (HozWrappedCol any)) :
  forall (ris : list (any * nat)) (s : PassState)
         (rows : list (list RowChild)) (s' : PassState),
    mapM (fun ri => renderRow state renderRange wrappedCols (fst ri) (snd ri))
      ris s = (rows, s') ->
    Forall (fun row => length row = length wrappedCols) rows.
Proof.
  induction ris as [|ri ris IH]; intros s rows s' Hrun.
  - inversion Hrun. constructor.
  - rewrite mapM_cons in Hrun.
    pose proof (renderRow_length wrappedCols (fst ri) (snd ri) s) as Hlen.
    destruct (renderRow state renderRange wrappedCols (fst ri) (snd ri) s)
      as [row s1].
    destruct (mapM _ ris s1) as [rows' s2] eqn:Hrest.
    inversion Hrun; subst. constructor; [exact Hlen|].
    eapply IH. eassumption.
Qed.

(** X12: a pass paints one row per record of
    [dataSource.slice(topIndex, bottomIndex)], that is
    [min(bottomIndex, dataSource.length) - topIndex] rows (none when that is
    negative), and each row has one child per wrapped column, a skipped cell
    counting as a child. *)
Theorem renderRows_shape (dataSource : list any) :
  let rows := fst (renderRows state dataSource renderRange) in
  let ver := rangeVertical renderRange in
  length rows
  = (Nat.min (bottomIndex ver) (length dataSource) - topIndex ver)%nat
  /\ Forall (fun row =>
               length row
               = length (getFlatHozWrappedCols state
                           (rangeHorizontal renderRange)))
       rows.
Proof.
  cbv zeta. unfold renderRows.
  match goal with
  | |- context [mapM ?f ?l ?s0] =>
      destruct (mapM f l s0) as [rows s1] eqn:Hrun
  end.
  cbn [fst]. split.
  - apply mapM_length in Hrun. rewrite Hrun, mapi_length.
    unfold slice. rewrite length_firstn, length_skipn. lia.
  - eapply rows_lengths. eassumption.
Qed.

(** A property that every call of [renderCell] made by a pass gives its
    cell holds of every cell of the pass. *)
Lemma row_Forall (Q : Cell -> Prop) (record : any) (rowIndex : Z)
    (allCols : list (HozWrappedCol any)) :
  (forall col colIndex s0 cell s1,
     In (normal col colIndex) allCols ->
     renderCell state renderRange record rowIndex col colIndex s0
     = (Some cell, s1) ->
     Q cell) ->
  forall (wrappedCols : list (HozWrappedCol any)) (s : PassState)
         (children : list RowChild) (s' : PassState),
    incl wrappedCols allCols ->
    mapM (fun wrapped =>
            match wrapped with
            | blank side _ => ret (blankTd side)
            | normal col colIndex =>
                cell <- renderCell state renderRange record rowIndex
                          col colIndex ;;
                ret (cellTd cell)
            end)
      wrappedCols s = (children, s') ->
    Forall Q (cellsOfRow children).
Proof.
  intros HQ.
  induction wrappedCols as [|wrapped rest IH];
    intros s children s' Hincl Hrun.
  - inversion Hrun. constructor.
  - rewrite mapM_cons in Hrun.
    assert (Hrest_incl : incl rest allCols)
      by (intros x Hx; apply Hincl; now right).
    destruct wrapped as [col colIndex | side w].
    + unfold bind at 1, ret at 1 in Hrun.
      destruct (renderCell state renderRange record rowIndex col colIndex s)
        as [cell s1] eqn:Hcell.
      destruct (mapM _ rest s1) as [children' s2] eqn:Hrest.
      inversion Hrun; subst; clear Hrun.
      specialize (IH _ _ _ Hrest_incl Hrest).
      destruct cell as [cell|]; cbn [cellsOfRow flat_map app];
        fold (cellsOfRow children'); [|exact IH].
      constructor; [|exact IH].
      eapply HQ; [|exact Hcell]. apply Hincl. now left.
    + unfold ret at 1 in Hrun.
      destruct (mapM _ rest s) as [children' s2] eqn:Hrest.
      inversion Hrun; subst; clear Hrun.
      cbn [cellsOfRow flat_map app]. fold (cellsOfRow children').
      eapply IH; eassumption.
Qed.

Lemma rows_Forall (Q : Cell -> Prop)
    (wrappedCols : list (HozWrappedCol any)) :
  forall (records : list any) (k : nat),
    (forall record i col colIndex s0 cell s1,
       nth_error records i = Some record ->
       In (normal col colIndex) wrappedCols ->
       renderCell state renderRange record
         (Z.of_nat (topIndex (rangeVertical renderRange))
          + Z.of_nat (k + i)) col colIndex s0
       = (Some cell, s1) ->
       Q cell) ->
    forall (s : PassState) (rows : list (list RowChild)) (s' : PassState),
      mapM (fun ri =>
              renderRow state renderRange wrappedCols (fst ri) (snd ri))
        (mapi (fun record i => (record, i)) k records) s = (rows, s') ->
      Forall Q (flat_map cellsOfRow rows).
Proof.
  induction records as [|record records IH]; intros k HQ s rows s' Hrun.
  - inversion Hrun. constructor.
  - cbn [mapi] in Hrun. rewrite mapM_cons in Hrun. cbn [fst snd] in Hrun.
    unfold renderRow at 1, bind at 1, spanManager_stripUpwards in Hrun.
    cbv zeta in Hrun.
    match type of Hrun with
    | context [mapM ?f wrappedCols ?s0] =>
        destruct (mapM f wrappedCols s0) as [children s1] eqn:Hrow
    end.
    destruct (mapM _ (mapi _ (S k) records) s1) as [rows' s2] eqn:Hrest.
    inversion Hrun; subst; clear Hrun.
    cbn [flat_map]. apply Forall_app. split.
    + eapply row_Forall; [|apply incl_refl|exact Hrow].
      intros col colIndex s0 cell s3 Hin Hcell.
      apply (HQ record 0%nat col colIndex s0 cell s3); auto.
      now rewrite Nat.add_0_r.
    + eapply IH; [|exact Hrest].
      intros r i col colIndex s0 cell s3 Hnth Hin Hcell.
      apply (HQ r (S i) col colIndex s0 cell s3); auto.
      now replace (k + S i)%nat with (S k + i)%nat by lia.
Qed.

(** X13: every cell painted in a pass sits in a row of the vertical range
    that exists in [dataSource]:
    [topIndex <= rowIndex < min(bottomIndex, dataSource.length)]. *)
Theorem painted_rows_exist (dataSource : list any) :
  let ver := rangeVertical renderRange in
  Forall (fun cell =>
            Z.of_nat (topIndex ver) <= cellRowIndex cell
            /\ cellRowIndex cell < Z.of_nat (bottomIndex ver)
            /\ cellRowIndex cell < Z.of_nat (length dataSource))
    (flat_map cellsOfRow (fst (renderRows state dataSource renderRange))).
Proof.
  cbv zeta. unfold renderRows.
  match goal with
  | |- context [mapM ?f ?l ?s0] =>
      destruct (mapM f l s0) as [rows s1] eqn:Hrun
  end.
  cbn [fst]. eapply rows_Forall; [|exact Hrun].
  intros record i col colIndex s0 cell s3 Hnth Hin Hcell.
  apply nth_error_slice in Hnth. destruct Hnth as [Hnth Hlt].
  assert (Hlen : (topIndex (rangeVertical renderRange) + i
                  < length dataSource)%nat)
    by (apply nth_error_Some; congruence).
  destruct (renderCell_facts _ _ _ _ _ _ _ Hcell) as (Hr & _).
  rewrite Hr. lia.
Qed.

(** X14: when every column asks for spans of at least 1, every cell painted
    in a pass keeps a [rowSpan] of at least 1, and a [colSpan] of at least 1
    if its column is left-locked or a center column of the horizontal
    range. *)
Theorem clipped_spans_positive (dataSource : list any) :
  asksPositiveSpans
    (getFlatHozWrappedCols state (rangeHorizontal renderRange)) ->
  Forall (fun cell =>
            1 <= rowSpan cell
            /\ (cellColIndex cell
                < Z.of_nat (length (Flat.left (flat state)))
                  + Z.of_nat (rightIndex (rangeHorizontal renderRange)) ->
                1 <= colSpan cell))
    (flat_map cellsOfRow (fst (renderRows state dataSource renderRange))).
Proof.
  intros Hasks. unfold renderRows.
  match goal with
  | |- context [mapM ?f ?l ?s0] =>
      destruct (mapM f l s0) as [rows s1] eqn:Hrun
  end.
  cbn [fst]. eapply rows_Forall; [|exact Hrun].
  intros record i col colIndex s0 cell s3 Hnth Hin Hcell.
  apply nth_error_slice in Hnth. destruct Hnth as [_ Hlt].
  pose proof (renderCell_spec state renderRange record
                (Z.of_nat (topIndex (rangeVertical renderRange))
                 + Z.of_nat (0 + i)) col colIndex s0) as Hspec.
  rewrite Hcell in Hspec. cbn [fst snd] in Hspec.
  destruct Hspec as (_ & Hr & Hc & Hrs & Hcs & _).
  destruct (Hasks record
              (Z.of_nat (topIndex (rangeVertical renderRange))
               + Z.of_nat (0 + i)) col colIndex Hin) as [Hcol Hrow].
  rewrite Hrs, Hcs, Hc. split; [lia|].
  intros Hinside. lia.
Qed.

End PassShape.

Lemma tallTable_asks : asksPositiveSpans
  (getFlatHozWrappedCols tallTable (rangeHorizontal tallRange)).
Proof.
  intros record rowIndex col colIndex Hin.
  vm_compute in Hin. destruct Hin as [Hin|[]].
  inversion Hin; subst. cbn. lia.
Defined.

Lemma clipped_spans_positive_witness :
  asksPositiveSpans
    (getFlatHozWrappedCols tallTable (rangeHorizontal tallRange))
  /\ Forall (fun cell =>
               1 <= rowSpan cell
               /\ (cellColIndex cell < 0 + 1 -> 1 <= colSpan cell))
       [mkCell 0 0 1 5 true (Some 1) (Some 5);
        mkCell 5 0 1 5 true (Some 1) (Some 5)].
Proof.
  split; [exact tallTable_asks|].
  exact (@clipped_spans_positive unit (list SpanRect.t) RectSpanManager
           tallTable tallRange tallData tallTable_asks).
Defined.

(** X15: under horizontal virtualisation a painted cell of a right-locked
    column gets a [colSpan] of 0 or less, whatever it asks for: the clip
    counts the columns up to [rightIndex], which the right-locked columns lie
    beyond.  Such a cell has [hasSpan] only through a [rowSpan] above 1; it
    is then registered with that [colSpan], which its [td] carries too, and
    otherwise it is not registered. *)
Theorem right_locked_colSpan_not_positive :
  forall (any SM : Type) (ops : SpanManagerOps SM) (OVERSCAN_SIZE : Z)
         (state : BaseTableState any) (ver : VerticalRenderRange)
         (record : any) (rowIndex : Z) (column : ArtColumn any)
         (colIndex : Z) (s : PassState) (cell : Cell) (s' : PassState),
    horizontal (useVirtual state) = true ->
    Z.of_nat (length (Flat.left (flat state)))
    + Z.of_nat (length (Flat.center (flat state))) <= colIndex ->
    renderCell state
      (mkRange ver (getHorizontalRenderRange OVERSCAN_SIZE state))
      record rowIndex column colIndex s = (Some cell, s') ->
    colSpan cell <= 0
    /\ (cellHasSpan cell = true -> 1 < rowSpan cell)
    /\ (cellHasSpan cell = true ->
        registered s'
        = registered s
          ++ [mkRegistration rowIndex colIndex (colSpan cell) (rowSpan cell)]
        /\ tdColSpan cell = Some (colSpan cell))
    /\ (cellHasSpan cell = false -> registered s' = registered s).
Proof.
  intros any SM ops O state ver record rowIndex column colIndex s cell s'
    Hvirtual Hright Hcell.
  destruct (getHorizontalRenderRange_virtual O state Hvirtual)
    as (_ & _ & ([_ Hri] & _) & _).
  rewrite length_map in Hri.
  pose proof (renderCell_spec state
                (mkRange ver (getHorizontalRenderRange O state))
                record rowIndex column colIndex s) as Hspec.
  rewrite Hcell in Hspec. cbn [fst snd rangeHorizontal] in Hspec.
  destruct Hspec as (_ & Hr & Hc & _ & Hcs & Hhas & Hreg & _ & Htc & _).
  assert (Hle : colSpan cell <= 0) by lia.
  split; [exact Hle|]. rewrite Hhas. split; [|split].
  - unfold spans. intros Hspan.
    apply orb_true_iff in Hspan. destruct Hspan as [H|H];
      apply Z.ltb_lt in H; lia.
  - intros Hspan. rewrite Hspan in Hreg, Htc.
    unfold registrationOf in Hreg. rewrite Hr, Hc in Hreg. now split.
  - intros Hspan. rewrite Hspan in Hreg. now rewrite app_nil_r in Hreg.
Qed.

Lemma right_locked_colSpan_not_positive_witness :
  let cell := mkCell 0 2 0 5 true (Some 0) (Some 5) in
  let s := mkPass (newSpanManager (SM := list SpanRect.t)) [] in
  let s' := mkPass [SpanRect.mk 0 5 2 2] [mkRegistration 0 2 0 5] in
  horizontal (useVirtual tallLocked) = true
  /\ 1 + 1 <= 2
  /\ renderCell tallLocked
       (mkRange (mkVer 0 0 10 0) (getHorizontalRenderRange 100 tallLocked))
       tt 0 tallCells 2 s
     = (Some cell, s')
  /\ colSpan cell <= 0
  /\ (cellHasSpan cell = true ->
      registered s' = registered s ++ [mkRegistration 0 2 0 5]
      /\ tdColSpan cell = Some 0).
Proof.
  intros cell s s'.
  split; [reflexivity|]. split; [lia|]. split; [reflexivity|].
  pose proof
    (@right_locked_colSpan_not_positive unit (list SpanRect.t)
       RectSpanManager 100 tallLocked (mkVer 0 0 10 0) tt 0 tallCells 2
       s cell s' eq_refl ltac:(cbn; lia) eq_refl) as H.
  split; [exact (proj1 H)|exact (proj1 (proj2 (proj2 H)))].
Defined.

(** ** The empty body and the deprecation warning *)

Section RenderBodyTheorems.

Variable any : Type.
Context {SM : Type} {ops : SpanManagerOps SM}.
Variable constantComponent : ReactNode -> ComponentType.

(** X16: for an empty vertical range the body is an [EmptyTable] whose only
    cell spans every [col] of the colgroup beside it, has the height of
    [emptyCellHeight ?? 200], and holds its content exactly when the table
    is not loading.  The content is [components.EmptyContent] when that is a
    component; else the component made of [emptyContent] when there is one;
    else the default content when [components.EmptyContent] is [undefined],
    and an element of type [null] when it is [null], which the default of
    [EmptyTable] does not replace. *)
Theorem empty_range_renders_EmptyTable (props : Props.t any)
    (state : BaseTableState any) (renderRange : FullRenderRange)
    (c : Console) :
  bottomIndex (rangeVertical renderRange)
  = topIndex (rangeVertical renderRange) ->
  let content :=
    match Props.componentsEmptyContent props, Props.emptyContent props with
    | Some jsNull, None => jsNull
    | (None | Some jsNull), Some emptyContent =>
        constantComponent emptyContent
    | None, None => DefaultEmptyContent
    | Some EmptyContent, _ => EmptyContent
    end in
  exists (cols : list Z) (table td group : ReactNode),
    fst (renderTableBody constantComponent props state renderRange c)
    = emptyBody cols table
    /\ nth_error (childrenOf table) 0 = Some group
    /\ cellOf table = Some td
    /\ attrColSpan (attributesOf td)
       = Some (Z.of_nat (length (childElements "col" group)))
    /\ length cols = length (childElements "col" group)
    /\ styleHeight (attributesOf td)
       = Some (nullish (Props.emptyCellHeight props) 200)
    /\ occurs content td = negb (Props.isLoading props).
Proof.
  intros Hempty content.
  unfold renderTableBody. rewrite Hempty, Z.sub_diag. cbn [Z.eqb].
  set (wrappedCols := getFlatHozWrappedCols state
                        (rangeHorizontal renderRange)).
  assert (Hcols : length (childElements "col" (colgroupOf wrappedCols))
                  = length wrappedCols).
  { unfold childElements, colgroupOf. cbn [childrenOf].
    induction wrappedCols as [|w ws IH]; cbn; [reflexivity|].
    now rewrite IH. }
  assert (Hmain : forall (ec : option ComponentType) (c' : Console),
             exists (cols : list Z) (table td group : ReactNode),
               fst (emptyBody (colgroupWidths wrappedCols)
                      (EmptyTable
                         {| colgroup := colgroupOf wrappedCols;
                            propColSpan := Z.of_nat (length wrappedCols);
                            isLoading := Props.isLoading props;
                            EmptyContent := ec;
                            emptyCellHeight := Props.emptyCellHeight props |}),
                    c')
               = emptyBody cols table
               /\ nth_error (childrenOf table) 0 = Some group
               /\ cellOf table = Some td
               /\ attrColSpan (attributesOf td)
                  = Some (Z.of_nat (length (childElements "col" group)))
               /\ length cols = length (childElements "col" group)
               /\ styleHeight (attributesOf td)
                  = Some (nullish (Props.emptyCellHeight props) 200)
               /\ occurs (nullish ec DefaultEmptyContent) td
                  = negb (Props.isLoading props)).
  { intros ec c'.
    eexists. eexists. eexists. exists (colgroupOf wrappedCols).
    split; [reflexivity|]. split; [reflexivity|]. split; [reflexivity|].
    rewrite Hcols. split; [reflexivity|].
    split; [unfold colgroupWidths; now rewrite length_map|].
    split; [reflexivity|].
    cbn [EmptyContent isLoading].
    destruct (Props.isLoading props); cbn [negb]; [reflexivity|].
    change (existsb (occurs (nullish ec DefaultEmptyContent))
              [component (nullish ec DefaultEmptyContent)] || false = true).
    cbn [existsb]. now rewrite occurs_self. }
  unfold content.
  destruct (Props.componentsEmptyContent props) as [[|name|]|];
    destruct (Props.emptyContent props) as [node|];
    unfold bind, ret, warnPropsDotEmptyContentIsDeprecated;
    try destruct (negb (propsDotEmptyContentDeprecatedWarned c));
    first [ exact (Hmain (Some DefaultEmptyContent) c)
          | exact (Hmain (Some (Custom name)) c)
          | exact (Hmain (Some jsNull) c)
          | exact (Hmain None c)
          | exact (Hmain (Some (constantComponent node)) _) ].
Qed.

(** One render leaves the console alone once the flag is set, and warns
    once, setting the flag, when it uses the deprecated prop before. *)
Lemma renderTableBody_console (r : Render any) (c : Console) :
  snd (renderTableBody constantComponent (fst (fst r)) (snd (fst r)) (snd r)
         c)
  = if usesDeprecatedProp r && negb (propsDotEmptyContentDeprecatedWarned c)
    then mkConsole true (warned c ++ [deprecationMessage])
    else c.
Proof.
  destruct r as [[props state] renderRange].
  unfold renderTableBody, usesDeprecatedProp. cbn [fst snd].
  destruct (Z.of_nat _ - Z.of_nat _ =? 0); cbn [andb]; [|reflexivity].
  destruct (Props.componentsEmptyContent props) as [[|name|]|];
    destruct (Props.emptyContent props) as [node|]; try reflexivity;
    unfold bind, ret, warnPropsDotEmptyContentIsDeprecated; cbn [andb];
    destruct (negb (propsDotEmptyContentDeprecatedWarned c)); reflexivity.
Qed.

Lemma consoleAfter_cons (r : Render any) (renders : list (Render any))
    (c : Console) :
  consoleAfter constantComponent (r :: renders) c
  = consoleAfter constantComponent renders
      (snd (renderTableBody constantComponent (fst (fst r)) (snd (fst r))
              (snd r) c)).
Proof. reflexivity. Qed.

Lemma consoleAfter_warned (renders : list (Render any)) :
  forall c,
    propsDotEmptyContentDeprecatedWarned c = true ->
    consoleAfter constantComponent renders c = c.
Proof.
  induction renders as [|r renders IH]; intros c Hc; [reflexivity|].
  rewrite consoleAfter_cons, renderTableBody_console, Hc, andb_false_r.
  now apply IH.
Qed.

(** X17: the deprecation of [emptyContent] is reported at most once however
    often the body is rendered: after any sequence of renders since the
    module was loaded, the console holds the warning once if some render
    used the deprecated prop (an empty range, no [components.EmptyContent],
    an [emptyContent]) and nothing otherwise. *)
Theorem deprecation_warned_once (renders : list (Render any)) :
  warned (consoleAfter constantComponent renders freshConsole)
  = if existsb (@usesDeprecatedProp any) renders
    then [deprecationMessage] else [].
Proof.
  unfold freshConsole.
  induction renders as [|r renders IH]; [reflexivity|].
  rewrite consoleAfter_cons, renderTableBody_console.
  cbn [existsb negb propsDotEmptyContentDeprecatedWarned warned app].
  rewrite andb_true_r.
  destruct (usesDeprecatedProp r); cbn [orb].
  - now rewrite consoleAfter_warned.
  - exact IH.
Qed.

End RenderBodyTheorems.

Lemma empty_range_renders_EmptyTable_witness :
  bottomIndex (rangeVertical (mkRange (mkVer 0 0 0 0) (mkHoz 0 0 5 0)))
  = topIndex (rangeVertical (mkRange (mkVer 0 0 0 0) (mkHoz 0 0 5 0)))
  /\ exists (cols : list Z) (table td group : ReactNode),
       fst (renderTableBody (SM := list SpanRect.t)
              (fun _ => Custom "emptyContent")
              (Props.mk [] false None None None) lockedColumns
              (mkRange (mkVer 0 0 0 0) (mkHoz 0 0 5 0)) freshConsole)
       = emptyBody cols table
       /\ nth_error (childrenOf table) 0 = Some group
       /\ cellOf table = Some td
       /\ attrColSpan (attributesOf td)
          = Some (Z.of_nat (length (childElements "col" group)))
       /\ length cols = length (childElements "col" group)
       /\ styleHeight (attributesOf td) = Some 200
       /\ occurs DefaultEmptyContent td = true.
Proof.
  split; [reflexivity|].
  exact (@empty_range_renders_EmptyTable unit (list SpanRect.t)
           RectSpanManager (fun _ => Custom "emptyContent"%string)
           (Props.mk [] false None None None) lockedColumns
           (mkRange (mkVer 0 0 0 0) (mkHoz 0 0 5 0)) freshConsole eq_refl).
Defined.

(** A [components.EmptyContent] that is [null], with no [emptyContent], is
    not replaced by the default content: the cell holds an element of type
    [null]. *)
Lemma null_EmptyContent_not_defaulted :
  exists (cols : list Z) (table td : ReactNode),
    fst (renderTableBody (SM := list SpanRect.t)
           (fun _ => Custom "emptyContent")
           (Props.mk [] false None None (Some jsNull)) lockedColumns
           (mkRange (mkVer 0 0 0 0) (mkHoz 0 0 5 0)) freshConsole)
    = emptyBody cols table
    /\ cellOf table = Some td
    /\ occurs jsNull td = true
    /\ occurs DefaultEmptyContent td = false.
Proof.
  eexists. eexists. eexists.
  split; [reflexivity|]. split; [reflexivity|]. split; reflexivity.
Qed.

(** ** updateRowHeightManager *)

Section RowHeightsTheorems.

Variable any : Type.
Variable RowHeightManager : Type.
Variable updateRow : RowHeightManager -> Z -> Z -> Z -> RowHeightManager.
Variable getRenderRange :
  RowHeightManager -> Z -> Z -> nat -> VerticalRenderRange.
Variable getFullRenderRange : nat -> VerticalRenderRange.

(** The maxima of the loop bound every row it has measured, and stay at or
    above what they were. *)
Lemma measureRows_bounds (virtualTopHeight : Z) (trs : list Tr) :
  forall m : Measure RowHeightManager,
    let m' := fold_left (measureRow updateRow virtualTopHeight) trs m in
    maxTrRowIndex m <= maxTrRowIndex m'
    /\ maxTrBottom m <= maxTrBottom m'
    /\ Forall (fun tr =>
                 match datasetRowIndex tr with
                 | None => True
                 | Some rowIndex =>
                     rowIndex <= maxTrRowIndex m'
                     /\ offsetTop tr + virtualTopHeight + offsetHeight tr
                        <= maxTrBottom m'
                 end) trs.
Proof.
  induction trs as [|tr trs IH]; intros m; cbn [fold_left].
  - repeat split; try lia. constructor.
  - specialize (IH (measureRow updateRow virtualTopHeight m tr)).
    cbv zeta in IH. destruct IH as (Hrow & Hbottom & Hall).
    set (m1 := measureRow updateRow virtualTopHeight m tr) in *.
    assert (Hstep : maxTrRowIndex m <= maxTrRowIndex m1
                    /\ maxTrBottom m <= maxTrBottom m1
                    /\ match datasetRowIndex tr with
                       | None => True
                       | Some rowIndex =>
                           rowIndex <= maxTrRowIndex m1
                           /\ offsetTop tr + virtualTopHeight
                              + offsetHeight tr <= maxTrBottom m1
                       end).
    { subst m1. unfold measureRow.
      destruct (datasetRowIndex tr); cbn [maxTrRowIndex maxTrBottom];
        repeat split; lia. }
    destruct Hstep as (Hs1 & Hs2 & Hs3).
    split; [lia|]. split; [lia|].
    constructor; [|exact Hall].
    destruct (datasetRowIndex tr); [lia|exact I].
Qed.

(** X18: [updateRowHeightManager] calls [forceUpdate] only when every row
    it measured ends above the bottom of the viewport,
    [offsetY + maxRenderHeight], and lies before the last row of the
    vertical range computed from the updated manager; it never does when
    no row carries a row index. *)
Theorem forceUpdate_only_when_rows_fall_short (dataSource : list any)
    (state : BaseTableState any) (rowHeightManager : RowHeightManager)
    (virtualTop : option Z) (trs : list Tr) :
  let result :=
    updateRowHeightManager updateRow getRenderRange getFullRenderRange
      dataSource state rowHeightManager virtualTop trs in
  let ver :=
    getVerticalRenderRange getRenderRange getFullRenderRange dataSource
      state (fst result) in
  snd result = true ->
  Forall (fun tr =>
            match datasetRowIndex tr with
            | None => True
            | Some rowIndex =>
                rowIndex < Z.of_nat (bottomIndex ver) - 1
                /\ offsetTop tr + nullish virtualTop 0 + offsetHeight tr
                   < offsetY state + maxRenderHeight state
            end) trs
  /\ exists tr rowIndex,
       In tr trs /\ datasetRowIndex tr = Some rowIndex.
Proof.
  cbv zeta. unfold updateRowHeightManager. cbv zeta. cbn [fst snd].
  set (m0 := mkMeasure (-1) (-1) rowHeightManager).
  pose proof (measureRows_bounds (nullish virtualTop 0) trs m0) as Hbounds.
  cbv zeta in Hbounds.
  set (m := fold_left (measureRow updateRow (nullish virtualTop 0)) trs m0)
    in *.
  destruct Hbounds as (_ & _ & Hall).
  destruct (Z.eqb_spec (maxTrRowIndex m) (-1)) as [Hnone|Hsome];
    cbn [negb]; [discriminate|].
  destruct (Z.ltb_spec (maxTrBottom m)
              (offsetY state + maxRenderHeight state)) as [Hshort|Hfull];
    [|discriminate].
  intros Hmore. apply Z.ltb_lt in Hmore. split.
  - eapply Forall_impl; [|exact Hall].
    intros tr Htr. cbv beta in Htr.
    destruct (datasetRowIndex tr); [|exact I]. lia.
  - destruct (existsb (fun tr => match datasetRowIndex tr with
                                 | Some _ => true | None => false end) trs)
      eqn:Hany.
    + apply existsb_exists in Hany. destruct Hany as (tr & Hin & Htr).
      destruct (datasetRowIndex tr) as [rowIndex|] eqn:Hindex;
        [|discriminate].
      now exists tr, rowIndex.
    + exfalso. apply Hsome. subst m.
      assert (Hskip : forall trs' m',
                 existsb (fun tr => match datasetRowIndex tr with
                                    | Some _ => true | None => false end)
                   trs' = false ->
                 fold_left (measureRow updateRow (nullish virtualTop 0))
                   trs' m' = m').
      { induction trs' as [|tr trs' IH]; intros m' Hnone'; [reflexivity|].
        cbn [existsb] in Hnone'. apply orb_false_iff in Hnone'.
        destruct Hnone' as [Htr Hrest]. cbn [fold_left].
        unfold measureRow at 2.
        destruct (datasetRowIndex tr); [discriminate|]. now apply IH. }
      now rewrite Hskip.
Qed.

End RowHeightsTheorems.

Lemma forceUpdate_only_when_rows_fall_short_witness :
  let result :=
    updateRowHeightManager (fun n _ _ _ => S n)
      (fun n _ _ rowCount => mkVer 0 0 rowCount 0)
      (fun rowCount => mkVer 0 0 rowCount 0)
      (repeat tt 20) fiveColumns 0%nat None fiveRows in
  result = (5%nat, true)
  /\ Forall (fun tr =>
               match datasetRowIndex tr with
               | None => True
               | Some rowIndex =>
                   rowIndex < 20 - 1
                   /\ offsetTop tr + 0 + offsetHeight tr < 0 + 600
               end) fiveRows.
Proof.
  split; [reflexivity|].
  exact (proj1
    (@forceUpdate_only_when_rows_fall_short unit nat (fun n _ _ _ => S n)
       (fun n _ _ rowCount => mkVer 0 0 rowCount 0)
       (fun rowCount => mkVer 0 0 rowCount 0)
       (repeat tt 20) fiveColumns 0%nat None fiveRows eq_refl)).
Defined.

(** ** The order of the wrapped columns *)

Lemma StronglySorted_app_lt (l1 l2 : list Z) :
  StronglySorted Z.lt l1 ->
  StronglySorted Z.lt l2 ->
  (forall a b, In a l1 -> In b l2 -> a < b) ->
  StronglySorted Z.lt (l1 ++ l2).
Proof.
  induction l1 as [|x l1 IH]; intros H1 H2 Hcross; cbn [app]; [exact H2|].
  apply StronglySorted_inv in H1. destruct H1 as [Hsorted Hhead].
  constructor.
  - apply IH; auto. intros a b Ha Hb. apply Hcross; [now right|exact Hb].
  - apply Forall_app. split; [exact Hhead|].
    apply Forall_forall. intros b Hb. apply Hcross; [now left|exact Hb].
Qed.

Lemma StronglySorted_map_seq (f : nat -> Z) (n : nat) :
  (forall i j, (i < j)%nat -> f i < f j) ->
  forall k, StronglySorted Z.lt (map f (seq k n)).
Proof.
  intros Hmono. induction n as [|n IH]; intros k; cbn [seq map];
    constructor; [apply IH|].
  apply Forall_forall. intros b Hb. rewrite in_map_iff in Hb.
  destruct Hb as (j & <- & Hj). apply in_seq in Hj. apply Hmono. lia.
Qed.

(** X19: the columns are painted in the order of [flat.full]: when [flat]
    is well formed, the column indices of the wrapped columns increase
    strictly from left to right, whatever the horizontal range, so the
    left-locked columns come first, the right-locked ones last, and no
    column is painted twice. *)
Theorem wrapped_columns_in_order :
  forall (any : Type) (state : BaseTableState any)
         (hoz : HorizontalRenderRange),
    flatWellFormed (flat state) ->
    StronglySorted Z.lt (colIndexes (getFlatHozWrappedCols state hoz)).
Proof.
  intros any state hoz Hwf. unfold getFlatHozWrappedCols.
  assert (Hfull : length (Flat.full (flat state))
                  = (length (Flat.left (flat state))
                     + length (Flat.center (flat state))
                     + length (Flat.right (flat state)))%nat).
  { rewrite Hwf, !length_app. lia. }
  assert (Hslice : length (slice (Flat.center (flat state))
                             (leftIndex hoz) (rightIndex hoz))
                   = Nat.min (rightIndex hoz - leftIndex hoz)
                       (length (Flat.center (flat state)) - leftIndex hoz)).
  { unfold slice. now rewrite length_firstn, length_skipn. }
  rewrite !colIndexes_app, !colIndexes_mapi.
  assert (Hblank : forall (b : bool) side w,
             colIndexes (any := any) (if b then [blank side w] else []) = []).
  { intros [] side w; reflexivity. }
  rewrite !Hblank. cbn [app]. rewrite Hslice.
  apply StronglySorted_app_lt; [| apply StronglySorted_app_lt |].
  - apply StronglySorted_map_seq. intros i j Hij. lia.
  - apply StronglySorted_map_seq. intros i j Hij. lia.
  - apply StronglySorted_map_seq. intros i j Hij. lia.
  - intros a b Ha Hb. rewrite in_map_iff in Ha, Hb.
    destruct Ha as (i & <- & Hi). destruct Hb as (j & <- & Hj).
    apply in_seq in Hi. apply in_seq in Hj. lia.
  - intros a b Ha Hb. rewrite in_app_iff in Hb. rewrite in_map_iff in Ha.
    destruct Ha as (i & <- & Hi). apply in_seq in Hi.
    destruct Hb as [Hb|Hb]; rewrite in_map_iff in Hb;
      destruct Hb as (j & <- & Hj); apply in_seq in Hj; lia.
Qed.

Lemma wrapped_columns_in_order_witness :
  flatWellFormed (flat lockedBothSides)
  /\ StronglySorted Z.lt [0; 2; 3; 4].
Proof.
  split; [reflexivity|].
  exact (@wrapped_columns_in_order unit lockedBothSides
           (getHorizontalRenderRange 20 lockedBothSides) eq_refl).
Defined.

(** ** The sort feature *)

(** X20: without [opts.sorts] the sorts are kept by the pipeline: when the
    pipeline returns at a key what was last set at it, the sorts that
    [sortStep] hands on in the render after [onChangeSorts(nextSorts)] are
    [nextSorts], also when [nextSorts] is empty, so [defaultSorts] only
    counts until the first change; and with [opts.sorts] given, the sorts
    handed on are [opts.sorts], whatever the pipeline holds. *)
Theorem sorts_round_trip :
  forall (SortItem OtherOptions P : Type)
         (pipelineOps : TablePipelineOps SortItem P)
         (opts : SortFeatureOptions SortItem OtherOptions) (pipeline : P)
         (nextSorts : list SortItem),
    (forall p stateKey value,
       getStateAtKey (setStateAtKey p stateKey value) stateKey
       = Some value) ->
    let next :=
      afterSortEffects pipeline
        (onChangeSorts (sortStep opts pipeline) nextSorts) in
    sorts (sortStep opts next)
    = match optionSorts opts with
      | Some given => given
      | None => nextSorts
      end.
Proof.
  intros SortItem OtherOptions P pipelineOps opts pipeline nextSorts Hlaw.
  cbv zeta. unfold sortStep at 1. cbn [sorts].
  destruct (optionSorts opts) as [given|]; [reflexivity|].
  cbn [nullish]. unfold sortStep. cbn [onChangeSorts].
  unfold afterSortEffects. rewrite fold_left_app. cbn [fold_left].
  now rewrite Hlaw.
Qed.

Lemma sorts_round_trip_witness :
  (forall (p : list (string * list nat)) stateKey value,
     getStateAtKey (setStateAtKey p stateKey value) stateKey = Some value)
  /\ sorts (sortStep (mkSortFeatureOptions (Some [1%nat]) None None true tt)
              (afterSortEffects ([] : list (string * list nat))
                 (onChangeSorts
                    (sortStep
                       (mkSortFeatureOptions (Some [1%nat]) None None true tt)
                       [])
                    [])))
     = [].
Proof.
  assert (Hlaw : forall (p : list (string * list nat)) stateKey value,
             getStateAtKey (setStateAtKey p stateKey value) stateKey
             = Some value).
  { intros p stateKey value. cbn. now rewrite String.eqb_refl. }
  split; [exact Hlaw|].
  exact (@sorts_round_trip nat unit (list (string * list nat))
           (ListPipeline nat)
           (mkSortFeatureOptions (Some [1%nat]) None None true tt) [] []
           Hlaw).
Defined.
